(** * DicomImage: frame extraction from DICOM files (image.py)

    A shallow embedding of [extract_frames_from_dicom] and of the batch
    loop of [image.py], together with the properties of the pixel
    normalisation and of the dispatch on the rank of the pixel buffer.

    Conventions of the embedding.
    - A NumPy array is a record of its dtype, its shape and its samples in
      row-major order.  Samples are rationals: the integer sample types that
      a pixel-data element decodes to (up to 32 bits) are represented exactly
      by [float64], the subtraction and the product by 255 stay exact below
      2^53, and the truncation of the rounded quotient agrees with the
      truncation of the exact one for ranges below 2^45.  The embedding
      therefore computes the [float64] stage with exact rationals.
    - [pydicom], [PIL] and [os] are collaborators: their behaviour is a
      parameter ([env]) of the extraction.
    - The extraction runs in a state monad over the [world] (standard
      output, directories, files) with Python exceptions as an error
      result; the state survives an exception, as in Python. *)

From Stdlib Require Import ZArith QArith Qround Lia Lqa List.
From Stdlib Require Import Ascii String DecimalString DecimalFacts DecimalNat.
From stdpp Require Import base option list sorting gmap strings.

Local Open Scope Z_scope.

(** ** Exceptions *)

(** The subclasses of [Exception] that the program can meet.  Every one of
    them is caught by the final [except Exception] clause. *)
Inductive exn : Type :=
  | InvalidDicomError          (* pydicom.errors.InvalidDicomError *)
  | FileNotFoundError
  | ValueError (msg : string)
  | TypeError (msg : string)
  | IndexError (msg : string)
  | OSError (msg : string)
  | OtherException (msg : string).

Definition result (A : Type) : Type := (exn + A)%type.

(** ** NumPy arrays *)

Module Np.

Inductive dtype : Type :=
  | uint8 | int8 | uint16 | int16 | uint32 | int32 | float64.

#[global] Instance dtype_eq_dec : EqDecision dtype.
Proof. solve_decision. Defined.

Definition dtype_eqb (a b : dtype) : bool :=
  match a, b with
  | uint8, uint8 | int8, int8 | uint16, uint16 | int16, int16
  | uint32, uint32 | int32, int32 | float64, float64 => true
  | _, _ => false
  end.

Record ndarray : Type := mk_ndarray {
  dtype_of : dtype;
  shape : list nat;
  data : list Q
}.

Definition ndim (a : ndarray) : nat := length (shape a).

(** Number of samples announced by a shape. *)
Definition size_of (sh : list nat) : nat := fold_right Nat.mul 1%nat sh.

(** A well-formed array holds as many samples as its shape says. *)
Definition wf (a : ndarray) : Prop := length (data a) = size_of (shape a).

(** [a.astype(np.float64)]: the samples keep their values. *)
Definition astype_float64 (a : ndarray) : ndarray :=
  mk_ndarray float64 (shape a) (data a).

(** Conversion of one [float64] sample to [uint8]: truncation toward zero,
    then reduction to 8 bits. *)
Definition to_uint8 (q : Q) : Z := Z.quot (Qnum q) (Z.pos (Qden q)) mod 256.

(** [a.astype(np.uint8)] *)
Definition astype_uint8 (a : ndarray) : ndarray :=
  mk_ndarray uint8 (shape a) ((fun q => inject_Z (to_uint8 q)) <$> data a).

(** [np.min(a)] and [np.max(a)]: a reduction without identity, which raises
    on an array of size zero. *)
Definition min_q (x y : Q) : Q := if Qle_bool x y then x else y.
Definition max_q (x y : Q) : Q := if Qle_bool x y then y else x.

Definition reduce (f : Q -> Q -> Q) (l : list Q) : option Q :=
  match l with
  | [] => None
  | x :: l' => Some (fold_left f l' x)
  end.

Definition min (a : ndarray) : result Q :=
  match reduce min_q (data a) with
  | Some m => inr m
  | None => inl (ValueError "zero-size array to reduction operation minimum which has no identity")
  end.

Definition max (a : ndarray) : result Q :=
  match reduce max_q (data a) with
  | Some m => inr m
  | None => inl (ValueError "zero-size array to reduction operation maximum which has no identity")
  end.

(** Arithmetic between an array and a scalar, sample by sample. *)
Definition map_data (f : Q -> Q) (a : ndarray) : ndarray :=
  mk_ndarray (dtype_of a) (shape a) (f <$> data a).

Definition sub_scalar (a : ndarray) (c : Q) : ndarray := map_data (fun x => (x - c)%Q) a.
Definition scalar_mul (c : Q) (a : ndarray) : ndarray := map_data (fun x => (c * x)%Q) a.
Definition div_scalar (a : ndarray) (c : Q) : ndarray := map_data (fun x => (x / c)%Q) a.

(** [np.zeros_like(a, dtype=np.float64)] *)
Definition zeros_like_float64 (a : ndarray) : ndarray :=
  mk_ndarray float64 (shape a) ((fun _ => 0%Q) <$> data a).

(** [a[i]]: the [i]-th slice along the leading axis. *)
Definition getitem (a : ndarray) (i : nat) : result ndarray :=
  match shape a with
  | [] => inl (IndexError "too many indices for array")
  | n :: sh =>
      if (i <? n)%nat then
        inr (mk_ndarray (dtype_of a) sh
               (take (size_of sh) (drop (i * size_of sh) (data a))))
      else inl (IndexError "index out of bounds")
  end.

End Np.

Import Np.

(** ** Normalisation to 8 bits

    The block [if frame.dtype != np.uint8: ...] occurs three times in the
    source, with the same text, at lines 75-84, 117-126 and 148-156. *)
Definition normalize (frame : ndarray) : result ndarray :=
  if negb (dtype_eqb (dtype_of frame) uint8) then
    let frame := astype_float64 frame in
    match Np.min frame with
    | inl e => inl e
    | inr min_val =>
      match Np.max frame with
      | inl e => inl e
      | inr max_val =>
        let frame :=
          if negb (Qeq_bool max_val min_val) then
            div_scalar (scalar_mul 255 (sub_scalar frame min_val)) (max_val - min_val)%Q
          else zeros_like_float64 frame in
        inr (astype_uint8 frame)
      end
    end
  else inr frame.

(** An array of 16-bit unsigned samples. *)
Definition u16 (sh : list nat) (l : list Z) : ndarray :=
  mk_ndarray uint16 sh (inject_Z <$> l).

(** The sample that normalisation writes for [x] when the frame ranges
    over [lo, hi]: the rescaled value, rounded down. *)
Definition rescaled (lo hi x : Q) : Z := Qfloor (255 * (x - lo) / (hi - lo)).

(** ** Paths and names ([os.path], POSIX flavour, and string formatting) *)

Module Path.

Local Open Scope string_scope.

Definition sep : ascii := "/"%char.

Definition starts_with_sep (p : string) : bool :=
  match p with
  | String c _ => Ascii.eqb c sep
  | EmptyString => false
  end.

Fixpoint ends_with_sep (p : string) : bool :=
  match p with
  | EmptyString => false
  | String c EmptyString => Ascii.eqb c sep
  | String _ r => ends_with_sep r
  end.

(** [os.path.join(a, b)]: an absolute [b] replaces [a]; otherwise the two
    are glued with one separator. *)
Definition join (a b : string) : string :=
  if starts_with_sep b then b
  else if (String.eqb a "" || ends_with_sep a)%bool then a ++ b
  else a ++ String sep b.

(** [os.path.join(a, b, c)] *)
Definition join3 (a b c : string) : string := join (join a b) c.

(** [os.path.basename(p)]: what follows the last separator. *)
Fixpoint basename_from (p cur : string) : string :=
  match p with
  | EmptyString => cur
  | String c r =>
      if Ascii.eqb c sep then basename_from r "" else basename_from r (cur ++ String c "")
  end.

Definition basename (p : string) : string := basename_from p "".

(** [os.path.splitext(p)[0]] for a name without separator: the name up to
    its last dot, unless only dots precede that dot. *)
Fixpoint rfind_from (c : ascii) (l : list ascii) (i : nat) (found : option nat) : option nat :=
  match l with
  | [] => found
  | x :: l' => rfind_from c l' (S i) (if Ascii.eqb x c then Some i else found)
  end.

Definition rfind (c : ascii) (l : list ascii) : option nat := rfind_from c l 0%nat None.

Definition splitext_root (p : string) : string :=
  let l := list_ascii_of_string p in
  match rfind "."%char l with
  | None => p
  | Some dotIndex =>
      if forallb (fun x => Ascii.eqb x "."%char) (take dotIndex l) then p
      else string_of_list_ascii (take dotIndex l)
  end.

(** [str.lower()] on ASCII letters, and [str.endswith]. *)
Definition lower_ascii (c : ascii) : ascii :=
  let n := nat_of_ascii c in
  if ((65 <=? n) && (n <=? 90))%nat then ascii_of_nat (n + 32) else c.

Fixpoint lower (s : string) : string :=
  match s with
  | EmptyString => EmptyString
  | String c r => String (lower_ascii c) (lower r)
  end.

Definition endswith (s suffix : string) : bool :=
  let n := String.length s in
  let k := String.length suffix in
  ((k <=? n)%nat && String.eqb (substring (n - k) k s) suffix)%bool.

(** Decimal digits of [i], padded with zeros on the left to four digits at
    least: the format [{i:04d}]. *)
Fixpoint zeros (k : nat) (d : Decimal.uint) : Decimal.uint :=
  match k with
  | O => d
  | S k' => Decimal.D0 (zeros k' d)
  end.

Definition format_04d (i : nat) : string :=
  let d := Nat.to_uint i in
  NilEmpty.string_of_uint (zeros (4 - Decimal.nb_digits d) d).

(** [f"frame_{i:04d}.png"] *)
Definition frame_name (i : nat) : string := "frame_" ++ format_04d i ++ ".png".

End Path.

(** ** The world: standard output, directories and files *)

(** A PIL image: its mode and the array it was built from. *)
Record image : Type := mk_image {
  im_mode : string;
  im_array : ndarray
}.

(** One constructor for each [print] of the source, with the values that
    the message interpolates. *)
Inductive diagnostic : Type :=
  | MsgProcessing (name : string)                         (* line 24 *)
  | InfoNoPixelData (name : string)                       (* line 34 *)
  | InfoReferencedImageSequence                           (* line 39 *)
  | MsgFoundFrames (num_frames : nat)                     (* line 67 *)
  | WarnFrameDimensions (sh : list nat) (i : nat)         (* line 94 *)
  | MsgExtractionComplete (name folder : string)          (* lines 106, 139 *)
  | MsgFoundFramesMultiChannel (num_frames : nat)         (* line 111 *)
  | MsgFoundSingleFrame                                   (* line 144 *)
  | MsgSavedSingleFrame (path : string)                   (* line 164 *)
  | WarnPixelArrayDimensions (nd : nat) (name : string)   (* line 167 *)
  | ErrInvalidDicom (name : string)                       (* line 172 *)
  | ErrInputNotFound (path : string)                      (* line 175 *)
  | ErrUnexpected (name : string) (e : exn)               (* line 178 *)
  | ErrFolderMissing (folder : string)                    (* line 196 *)
  | MsgScanning (folder : string)                         (* line 198 *)
  | ErrListing (folder : string) (e : exn)                (* line 204 *)
  | MsgFinished.                                          (* line 217 *)

Record world : Type := mk_world {
  stdout : list diagnostic;
  dirs : gset string;
  files : gmap string image
}.

Definition empty_world : world := mk_world [] ∅ ∅.

(** ** Collaborators *)

(** A decoded DICOM object: the tags it holds, and what reading its
    [pixel_array] attribute gives (decoding the pixels may raise). *)
Record dataset : Type := mk_dataset {
  tags : list (Z * Z);
  pixel_array : result ndarray
}.

(** [tag in ds] *)
Definition tag_in (t : Z * Z) (ds : dataset) : bool :=
  existsb (fun u => (fst u =? fst t) && (snd u =? snd t))%bool (tags ds).

Definition PixelData : Z * Z := (0x7fe0, 0x0010).
Definition ReferencedImageSequence : Z * Z := (0x0008, 0x1140).

(** What [pydicom], [PIL] and [os] do.  [makedirs_error] and [save_error]
    tell whether the call raises in a given world; when it does not, the
    directory or the file is there afterwards. *)
Record env : Type := mk_env {
  dcmread : string -> result dataset;
  script_dir : string;
  makedirs_error : world -> string -> option exn;
  fromarray : ndarray -> option string -> result image;
  save_error : world -> image -> string -> option exn;
  isdir : string -> bool;
  listdir : string -> result (list string)
}.

(** ** State and exception monad *)

Definition M (A : Type) : Type := world -> result A * world.

Definition ret {A : Type} (x : A) : M A := fun w => (inr x, w).

Definition raise {A : Type} (e : exn) : M A := fun w => (inl e, w).

Definition bind {A B : Type} (c : M A) (k : A -> M B) : M B :=
  fun w => match c w with
           | (inr x, w') => k x w'
           | (inl e, w') => (inl e, w')
           end.

(** [try: c  except Exception as e: h e] *)
Definition try_except {A : Type} (c : M A) (h : exn -> M A) : M A :=
  fun w => match c w with
           | (inr x, w') => (inr x, w')
           | (inl e, w') => h e w'
           end.

Definition lift {A : Type} (r : result A) : M A :=
  match r with
  | inr x => ret x
  | inl e => raise e
  end.

Declare Scope py_scope.
Delimit Scope py_scope with py.
Notation "'let!' x ':=' c 'in' k" := (bind c (fun x => k))
  (at level 10, x name, c at level 100, k at level 200) : py_scope.
Notation "c '>>' k" := (bind c (fun _ => k))
  (at level 90, right associativity) : py_scope.

Local Open Scope py_scope.

Definition print (d : diagnostic) : M unit :=
  fun w => (inr tt, mk_world (stdout w ++ [d]) (dirs w) (files w)).

(** [os.path.exists(p)] *)
Definition path_exists (p : string) : M bool :=
  fun w => (inr (bool_decide (p ∈ dirs w) || bool_decide (is_Some (files w !! p)))%bool, w).

(** [os.makedirs(p)] *)
Definition makedirs (E : env) (p : string) : M unit :=
  fun w => match makedirs_error E w p with
           | Some e => (inl e, w)
           | None => (inr tt, mk_world (stdout w) ({[p]} ∪ dirs w) (files w))
           end.

(** [image.save(p)] *)
Definition save (E : env) (img : image) (p : string) : M unit :=
  fun w => match save_error E w img p with
           | Some e => (inl e, w)
           | None => (inr tt, mk_world (stdout w) (dirs w) (<[p := img]> (files w)))
           end.

(** [for x in l: body x] *)
Fixpoint for_each {A : Type} (l : list A) (body : A -> M unit) : M unit :=
  match l with
  | [] => ret tt
  | x :: l' => body x >> for_each l' body
  end.

(** [for i in range(n): body i] *)
Definition for_range (n : nat) (body : nat -> M unit) : M unit :=
  for_each (seq 0 n) body.

(** ** The extraction *)

Import Path.

Section Extraction.

Variable E : env.

(** Lines 46-57: the folder that receives the images of one source file. *)
Definition specific_output_folder_name (dicom_filepath : string) : string :=
  (splitext_root (basename dicom_filepath) ++ "_extracted")%string.

Definition specific_output_path (dicom_filepath base_output_folder : string) : string :=
  join3 (script_dir E) base_output_folder (specific_output_folder_name dicom_filepath).

(** [frame.shape[-1] in (3, 4)] *)
Definition last_axis_in_3_4 (frame : ndarray) : bool :=
  match last (shape frame) with
  | Some c => ((c =? 3)%nat || (c =? 4)%nat)%bool
  | None => false
  end.

(** Lines 70-102: one turn of the loop of the rank-3 branch.  The [else]
    branch stands for [continue]. *)
Definition frame_step_rank3 (out_path : string) (arr : ndarray) (i : nat) : M unit :=
  let! frame := lift (getitem arr i) in
  let! frame := lift (normalize frame) in
  if (ndim frame =? 2)%nat then
    let! image := lift (fromarray E frame (Some "L"%string)) in
    save E image (join out_path (frame_name i))
  else if ((ndim frame =? 3)%nat && last_axis_in_3_4 frame)%bool then
    let! image := lift (fromarray E frame None) in
    save E image (join out_path (frame_name i))
  else
    print (WarnFrameDimensions (shape frame) i).

(** Lines 114-135: one turn of the loop of the rank-4 branch. *)
Definition frame_step_rank4 (out_path : string) (arr : ndarray) (i : nat) : M unit :=
  let! frame := lift (getitem arr i) in
  let! frame := lift (normalize frame) in
  let! image := lift (fromarray E frame None) in
  save E image (join out_path (frame_name i)).

(** [pixel_array.shape[0]] *)
Definition num_frames (arr : ndarray) : nat := hd 0%nat (shape arr).

(** Lines 63-167: the dispatch on the rank of the pixel buffer. *)
Definition dispatch (dicom_filepath base_output_folder out_path : string)
    (arr : ndarray) : M unit :=
  if (ndim arr =? 3)%nat then
    print (MsgFoundFrames (num_frames arr)) >>
    for_range (num_frames arr) (frame_step_rank3 out_path arr) >>
    print (MsgExtractionComplete (basename dicom_filepath)
             (join base_output_folder (specific_output_folder_name dicom_filepath)))
  else if (ndim arr =? 4)%nat then
    print (MsgFoundFramesMultiChannel (num_frames arr)) >>
    for_range (num_frames arr) (frame_step_rank4 out_path arr) >>
    print (MsgExtractionComplete (basename dicom_filepath)
             (join base_output_folder (specific_output_folder_name dicom_filepath)))
  else if (ndim arr =? 2)%nat then
    print MsgFoundSingleFrame >>
    let! frame := lift (normalize arr) in
    let! image := lift (fromarray E frame (Some "L"%string)) in
    save E image (join out_path "single_frame.png") >>
    print (MsgSavedSingleFrame
             (join3 base_output_folder (specific_output_folder_name dicom_filepath)
                "single_frame.png"))
  else
    print (WarnPixelArrayDimensions (ndim arr) (basename dicom_filepath)).

(** Lines 28-167: the body of the [try] statement. *)
Definition try_body (dicom_filepath base_output_folder : string) : M unit :=
  let! ds := lift (dcmread E dicom_filepath) in
  if negb (tag_in PixelData ds) then
    print (InfoNoPixelData (basename dicom_filepath)) >>
    (if tag_in ReferencedImageSequence ds then print InfoReferencedImageSequence
     else ret tt)
  else
    let! arr := lift (pixel_array ds) in
    let out_path := specific_output_path dicom_filepath base_output_folder in
    let! present := path_exists out_path in
    (if negb present then makedirs E out_path else ret tt) >>
    dispatch dicom_filepath base_output_folder out_path arr.

(** Lines 170-178: the three [except] clauses, tried in order. *)
Definition handler (dicom_filepath : string) (e : exn) : M unit :=
  match e with
  | InvalidDicomError => print (ErrInvalidDicom (basename dicom_filepath))
  | FileNotFoundError => print (ErrInputNotFound dicom_filepath)
  | _ => print (ErrUnexpected (basename dicom_filepath) e)
  end.

Definition extract_frames_from_dicom (dicom_filepath base_output_folder : string) : M unit :=
  print (MsgProcessing (basename dicom_filepath)) >>
  try_except (try_body dicom_filepath base_output_folder) (handler dicom_filepath).

(** Lines 193-217: the batch loop of the script. *)
Definition sorted (l : list string) : list string := merge_sort String.le l.

Definition process_filename (dicom_folder_path filename : string) : M unit :=
  if endswith (lower filename) ".dcm" then
    extract_frames_from_dicom (join dicom_folder_path filename) "extracted_images"
  else ret tt.

Definition main (dicom_folder_path : string) : M unit :=
  if negb (isdir E dicom_folder_path) then
    print (ErrFolderMissing dicom_folder_path)
  else
    print (MsgScanning dicom_folder_path) >>
    let! filenames :=
      try_except (let! l := lift (listdir E dicom_folder_path) in ret (sorted l))
                 (fun e => print (ErrListing dicom_folder_path e) >> ret [])
    in
    for_each filenames (process_filename dicom_folder_path) >>
    print MsgFinished.

End Extraction.

(** ** Specification-side helpers *)

Section Helpers.

Variable E : env.

(** The image that the loops build for frame [i]: slice, normalise,
    encode with the given mode flag. *)
Definition encode_frame (mode : option string) (arr : ndarray) (i : nat) : result image :=
  match getitem arr i with
  | inl e => inl e
  | inr frame =>
      match normalize frame with
      | inl e => inl e
      | inr frame => fromarray E frame mode
      end
  end.

(** Encode, then write under the name of frame [i]. *)
Definition save_step (enc : nat -> result image) (out_path : string) (i : nat) : M unit :=
  (let! image := lift (enc i) in save E image (join out_path (frame_name i)))%py.

(** The files after the frames of [l] have been written, in order. *)
Fixpoint put_frames (out_path : string) (img : nat -> image) (l : list nat)
    (fs : gmap string image) : gmap string image :=
  match l with
  | [] => fs
  | i :: l' => put_frames out_path img l' (<[join out_path (frame_name i) := img i]> fs)
  end.

Definition from_result (d : image) (r : result image) : image :=
  match r with
  | inr x => x
  | inl _ => d
  end.

(** The environment lets every directory be created, and every file be
    written. *)
Definition can_mkdir : Prop := forall w p, makedirs_error E w p = None.
Definition writable : Prop := forall w img p, save_error E w img p = None.

(** Every frame of an array can be normalised: it is [uint8] already, or
    the array is well formed and its frames are not empty. *)
Definition frames_normalizable (arr : ndarray) : Prop :=
  dtype_of arr = uint8 \/ (wf arr /\ (0 < size_of (tail (shape arr)))%nat).

(** The encoder accepts, with the given mode flag, every normalised frame
    of the array. *)
Definition encoder_accepts (mode : option string) (arr : ndarray) : Prop :=
  forall i f0 f, getitem arr i = inr f0 -> normalize f0 = inr f ->
    exists img, fromarray E f mode = inr img.

(** The diagnostic that the [except] clauses print for [e]. *)
Definition handler_diagnostic (dicom_filepath : string) (e : exn) : diagnostic :=
  match e with
  | InvalidDicomError => ErrInvalidDicom (basename dicom_filepath)
  | FileNotFoundError => ErrInputNotFound dicom_filepath
  | _ => ErrUnexpected (basename dicom_filepath) e
  end.

End Helpers.

(** ** A sample environment *)

Module Demo.

Local Open Scope string_scope.

Definition u8 (sh : list nat) (l : list Z) : ndarray :=
  mk_ndarray uint8 sh (inject_Z <$> l).

(** An encoder in the manner of PIL: the explicit mode is taken as given,
    otherwise the mode follows from the number of channels. *)
Definition pil_fromarray (a : ndarray) (mode : option string) : result image :=
  match mode with
  | Some m => inr (mk_image m a)
  | None =>
      match shape a with
      | [_; _] => inr (mk_image "L" a)
      | [_; _; 3%nat] => inr (mk_image "RGB" a)
      | [_; _; 4%nat] => inr (mk_image "RGBA" a)
      | _ => inl (TypeError "Cannot handle this data type")
      end
  end.

Definition single : ndarray := u8 [2;2]%nat [10; 20; 30; 40].
Definition cine : ndarray := u16 [2;2;2]%nat [100; 100; 100; 100; 0; 250; 500; 1000].
Definition colour : ndarray := u8 [2;1;1;3]%nat [1; 2; 3; 4; 5; 6].
Definition volume5 : ndarray := u8 [1;1;1;1;1]%nat [9].
Definition five_channels : ndarray := u8 [1;1;1;5]%nat [1; 2; 3; 4; 5].

Definition demo_dcmread (p : string) : result dataset :=
  if String.eqb p "/in/single.dcm" then inr (mk_dataset [PixelData] (inr single))
  else if String.eqb p "/in/cine.dcm" then inr (mk_dataset [PixelData] (inr cine))
  else if String.eqb p "/in/colour.dcm" then inr (mk_dataset [PixelData] (inr colour))
  else if String.eqb p "/in/volume5.dcm" then inr (mk_dataset [PixelData] (inr volume5))
  else if String.eqb p "/in/keyobject.dcm" then
    inr (mk_dataset [ReferencedImageSequence] (inl (OtherException "no pixel data")))
  else if String.eqb p "/in/report.dcm" then
    inr (mk_dataset [] (inl (OtherException "no pixel data")))
  else if String.eqb p "/in/notes.dcm" then inl InvalidDicomError
  else inl FileNotFoundError.

Definition demo_env : env :=
  mk_env demo_dcmread "/opt/app" (fun _ _ => None) pil_fromarray (fun _ _ _ => None)
    (fun p => String.eqb p "/in")
    (fun p => if String.eqb p "/in"
              then inr ["single.dcm"; "README.txt"; "notes.dcm"; "CINE.DCM"]
              else inl FileNotFoundError).

(** The same, on a volume with room for one image only. *)
Definition full_disk_env : env :=
  mk_env demo_dcmread "/opt/app" (fun _ _ => None) pil_fromarray
    (fun w _ _ => if (size (files w) <? 1)%nat then None
                  else Some (OSError "No space left on device"))
    (fun _ => false) (fun _ => inr []).

(** Edge cases: a buffer with frames but no sample, a buffer without
    frames, and two sources with the same base name. *)
Definition empty_frames : ndarray := mk_ndarray int16 [2;0;4]%nat [].
Definition no_frames : ndarray := mk_ndarray uint16 [0;2;2]%nat [].
Definition other_single : ndarray := u8 [1;2]%nat [7; 9].

Definition edge_dcmread (p : string) : result dataset :=
  if String.eqb p "/in/empty.dcm" then inr (mk_dataset [PixelData] (inr empty_frames))
  else if String.eqb p "/in/noframes.dcm" then inr (mk_dataset [PixelData] (inr no_frames))
  else if String.eqb p "/a/scan.dcm" then inr (mk_dataset [PixelData] (inr single))
  else if String.eqb p "/b/scan.dcm" then inr (mk_dataset [PixelData] (inr other_single))
  else inl FileNotFoundError.

Definition edge_env : env :=
  mk_env edge_dcmread "/opt/app" (fun _ _ => None) pil_fromarray (fun _ _ _ => None)
    (fun _ => false) (fun _ => inr []).

(** The sample environment, where no directory can be created. *)
Definition locked_env : env :=
  mk_env demo_dcmread "/opt/app" (fun _ _ => Some (OSError "Permission denied"))
    pil_fromarray (fun _ _ _ => None) (fun _ => false) (fun _ => inr []).

(** The sample environment, where the second frame of [cine.dcm] cannot be
    written. *)
Definition bad_sector_env : env :=
  mk_env demo_dcmread "/opt/app" (fun _ _ => None) pil_fromarray
    (fun _ _ p =>
       if String.eqb p "/opt/app/extracted_images/cine_extracted/frame_0001.png"
       then Some (OSError "Input/output error") else None)
    (fun _ => false) (fun _ => inr []).

End Demo.

(** ** Worlds after a step *)

(** The world after [print d]. *)
Definition printed (d : diagnostic) (w : world) : world :=
  mk_world (stdout w ++ [d]) (dirs w) (files w).

(** The world after lines 60-61, when [os.makedirs] does not raise. *)
Definition ensure_folder (p : string) (w : world) : world :=
  if (bool_decide (p ∈ dirs w) || bool_decide (is_Some (files w !! p)))%bool then w
  else mk_world (stdout w) ({[p]} ∪ dirs w) (files w).

(** The world after [image.save(p)], when it does not raise. *)
Definition written (p : string) (img : image) (w : world) : world :=
  mk_world (stdout w) (dirs w) (<[p := img]> (files w)).

(** ** The error-handling sentence, as the specification words it *)

(** "The three error kinds are each caught and logged, and the function
    returns without producing Output Artifacts for that file": whenever the
    body of the [try] statement raises, the function returns normally and
    the files are what they were before the call. *)
Definition caught_errors_leave_no_artifact : Prop :=
  forall (E : env) (dicom_filepath base : string) (w w1 : world) (e : exn),
    try_body E dicom_filepath base (printed (MsgProcessing (basename dicom_filepath)) w)
    = (inl e, w1) ->
    exists w',
      extract_frames_from_dicom E dicom_filepath base w = (inr tt, w') /\
      files w' = files w.

(** ** Relations between the world before and the world after *)

(** A computation preserves [P] when every run of it relates the world it
    starts in to the world it ends in, whether it returns or raises. *)
Definition preserves (P : world -> world -> Prop) {A : Type} (c : M A) : Prop :=
  forall w r w', c w = (r, w') -> P w w'.

Definition same_dirs (w w' : world) : Prop := dirs w' = dirs w.
Definition same_stdout (w w' : world) : Prop := stdout w' = stdout w.
Definition same_files (w w' : world) : Prop := files w' = files w.

(** Only the files whose path satisfies [S] may differ. *)
Definition files_differ_within (S : string -> Prop) (w w' : world) : Prop :=
  forall p, ~ S p -> files w' !! p = files w !! p.

(** The directories, and the standard output, can only grow. *)
Definition dirs_grow (w w' : world) : Prop := dirs w ⊆ dirs w'.
Definition stdout_grows (w w' : world) : Prop := stdout w `prefix_of` stdout w'.

(** The paths of the frames [0 .. n-1] below a folder. *)
Definition frame_paths (out_path : string) (n : nat) (p : string) : Prop :=
  exists i, (i < n)%nat /\ p = join out_path (frame_name i).

(** The paths that the dispatch on [arr] writes below [out_path] lie in [S]. *)
Definition may_write (S : string -> Prop) (out_path : string) (arr : ndarray) : Prop :=
  (ndim arr = 2%nat -> S (join out_path "single_frame.png")) /\
  (ndim arr = 3%nat \/ ndim arr = 4%nat ->
   forall i, (i < num_frames arr)%nat -> S (join out_path (frame_name i))).

(** The message that announces the frames, by the mode flag of the branch. *)
Definition found_message (mode : option string) (n : nat) : diagnostic :=
  match mode with
  | Some _ => MsgFoundFrames n
  | None => MsgFoundFramesMultiChannel n
  end.

(** The lines of the standard output that announce a file. *)
Definition is_processing (d : diagnostic) : bool :=
  match d with
  | MsgProcessing _ => true
  | _ => false
  end.

(** The names that the batch loop hands to the extraction. *)
Definition is_dcm (filename : string) : bool := endswith (lower filename) ".dcm".

(** What was there before is still there: directories, files (possibly
    with a new content) and the lines already printed. *)
Definition nothing_removed (w w' : world) : Prop :=
  dirs w ⊆ dirs w' /\ dom (files w) ⊆ dom (files w') /\ stdout w `prefix_of` stdout w'.

(** The same files have been announced. *)
Definition same_announcements (w w' : world) : Prop :=
  List.filter is_processing (stdout w') = List.filter is_processing (stdout w).

(** The paths of the images of a source, in its folder [out_path]. *)
Definition artifact_path (out_path p : string) : Prop :=
  p = join out_path "single_frame.png" \/ exists i, p = join out_path (frame_name i).

(** The paths of the images of the batch over the names [l] of a folder. *)
Definition batch_outputs (E : env) (folder : string) (l : list string) (p : string) : Prop :=
  exists f, f ∈ l /\ is_dcm f = true /\
    artifact_path (specific_output_path E (join folder f) "extracted_images") p.

(** * Properties *)

(** ** The embedding at work *)

Section Examples.

Import Path.
Local Open Scope string_scope.

Example normalize_ramp :
  normalize (u16 [2;2]%nat [0; 250; 500; 1000])
  = inr (mk_ndarray uint8 [2;2]%nat (inject_Z <$> [0; 63; 127; 255])).
Proof. vm_compute. reflexivity. Qed.

Example frame_name_7 : frame_name 7 = "frame_0007.png".
Proof. reflexivity. Qed.

Example frame_name_1234 : frame_name 1234 = "frame_1234.png".
Proof. reflexivity. Qed.

Example format_04d_wide : format_04d (100 * 123 + 45) = "12345".
Proof. reflexivity. Qed.

Example join_rel : join3 "/opt/app" "extracted_images" "scan_extracted"
                   = "/opt/app/extracted_images/scan_extracted".
Proof. reflexivity. Qed.

Example splitext_dcm : splitext_root (basename "/data/in/scan.v2.dcm") = "scan.v2".
Proof. reflexivity. Qed.

Example splitext_hidden : splitext_root ".dcm" = ".dcm".
Proof. reflexivity. Qed.

Example endswith_dcm : endswith (lower "IMG001.DCM") ".dcm" = true.
Proof. reflexivity. Qed.

End Examples.
(** ** Properties of the reductions *)

Section Reductions.

Lemma min_q_cases x y : (min_q x y = x /\ (x <= y)%Q) \/ (min_q x y = y /\ (y <= x)%Q).
Proof.
  unfold min_q. destruct (Qle_bool x y) eqn:E.
  - left. split; [done|]. by apply Qle_bool_iff.
  - right. split; [done|]. apply Qlt_le_weak, Qnot_le_lt.
    intros H. apply Qle_bool_iff in H. congruence.
Qed.

Lemma max_q_cases x y : (max_q x y = y /\ (x <= y)%Q) \/ (max_q x y = x /\ (y <= x)%Q).
Proof.
  unfold max_q. destruct (Qle_bool x y) eqn:E.
  - left. split; [done|]. by apply Qle_bool_iff.
  - right. split; [done|]. apply Qlt_le_weak, Qnot_le_lt.
    intros H. apply Qle_bool_iff in H. congruence.
Qed.

Lemma fold_min_spec (l : list Q) (x : Q) :
  fold_left min_q l x ∈ x :: l /\
  forall y, y ∈ x :: l -> (fold_left min_q l x <= y)%Q.
Proof.
  revert x. induction l as [|a l IH]; intros x; simpl.
  - split; [apply list_elem_of_here|]. intros y Hy. apply list_elem_of_singleton in Hy. subst. apply Qle_refl.
  - destruct (IH (min_q x a)) as [Hin Hle]. split.
    + apply elem_of_cons in Hin as [Hin|Hin]; [|(rewrite ?elem_of_cons; auto)].
      rewrite Hin. destruct (min_q_cases x a) as [[-> _]|[-> _]]; (rewrite ?elem_of_cons; auto).
    + intros y Hy.
      assert (Hm : (fold_left min_q l (min_q x a) <= min_q x a)%Q) by (apply Hle; (rewrite ?elem_of_cons; auto)).
      apply elem_of_cons in Hy as [->|Hy].
      * eapply Qle_trans; [exact Hm|].
        destruct (min_q_cases x a) as [[-> ?]|[-> ?]]; [apply Qle_refl|done].
      * apply elem_of_cons in Hy as [->|Hy]; [|apply Hle; (rewrite ?elem_of_cons; auto)].
        eapply Qle_trans; [exact Hm|].
        destruct (min_q_cases x a) as [[-> ?]|[-> ?]]; [done|apply Qle_refl].
Qed.

Lemma fold_max_spec (l : list Q) (x : Q) :
  fold_left max_q l x ∈ x :: l /\
  forall y, y ∈ x :: l -> (y <= fold_left max_q l x)%Q.
Proof.
  revert x. induction l as [|a l IH]; intros x; simpl.
  - split; [apply list_elem_of_here|]. intros y Hy. apply list_elem_of_singleton in Hy. subst. apply Qle_refl.
  - destruct (IH (max_q x a)) as [Hin Hle]. split.
    + apply elem_of_cons in Hin as [Hin|Hin]; [|(rewrite ?elem_of_cons; auto)].
      rewrite Hin. destruct (max_q_cases x a) as [[-> _]|[-> _]]; (rewrite ?elem_of_cons; auto).
    + intros y Hy.
      assert (Hm : (max_q x a <= fold_left max_q l (max_q x a))%Q) by (apply Hle; (rewrite ?elem_of_cons; auto)).
      apply elem_of_cons in Hy as [->|Hy].
      * eapply Qle_trans; [|exact Hm].
        destruct (max_q_cases x a) as [[-> ?]|[-> ?]]; [done|apply Qle_refl].
      * apply elem_of_cons in Hy as [->|Hy]; [|apply Hle; (rewrite ?elem_of_cons; auto)].
        eapply Qle_trans; [|exact Hm].
        destruct (max_q_cases x a) as [[-> ?]|[-> ?]]; [apply Qle_refl|done].
Qed.

Lemma reduce_min_spec (l : list Q) (m : Q) :
  reduce min_q l = Some m -> m ∈ l /\ forall y, y ∈ l -> (m <= y)%Q.
Proof.
  destruct l as [|x l]; simpl; [done|]. intros [= <-]. apply fold_min_spec.
Qed.

Lemma reduce_max_spec (l : list Q) (m : Q) :
  reduce max_q l = Some m -> m ∈ l /\ forall y, y ∈ l -> (y <= m)%Q.
Proof.
  destruct l as [|x l]; simpl; [done|]. intros [= <-]. apply fold_max_spec.
Qed.

Lemma reduce_is_Some (f : Q -> Q -> Q) (l : list Q) : l <> [] -> is_Some (reduce f l).
Proof. destruct l; [done|]. intros _. simpl. eauto. Qed.

End Reductions.

(** ** Properties of the conversion to 8 bits *)

Section Cast.

Lemma to_uint8_floor (q : Q) :
  (0 <= q)%Q -> (q <= 255)%Q -> to_uint8 q = Qfloor q /\ 0 <= Qfloor q <= 255.
Proof.
  intros H0 H255.
  assert (Hlo : 0 <= Qfloor q).
  { change 0 with (Qfloor 0). by apply Qfloor_resp_le. }
  assert (Hhi : Qfloor q <= 255).
  { rewrite <- (Qfloor_Z 255). by apply Qfloor_resp_le. }
  split; [|lia].
  unfold to_uint8. destruct q as [n d]. simpl in *.
  assert (0 <= n) by (unfold Qle in H0; simpl in H0; lia).
  rewrite Z.quot_div_nonneg by lia.
  apply Z.mod_small. lia.
Qed.

Lemma to_uint8_inject (z : Z) : 0 <= z <= 255 -> to_uint8 (inject_Z z) = z.
Proof.
  intros Hz. unfold to_uint8. simpl. rewrite Z.quot_1_r. apply Z.mod_small. lia.
Qed.

(** The rescaled sample lies between 0 and 255. *)
Lemma rescale_bounds (x lo hi : Q) :
  (lo <= x)%Q -> (x <= hi)%Q -> (lo < hi)%Q ->
  (0 <= 255 * (x - lo) / (hi - lo))%Q /\ (255 * (x - lo) / (hi - lo) <= 255)%Q.
Proof.
  intros H1 H2 H3. assert (Hd : (0 < hi - lo)%Q) by lra. split.
  - apply Qle_shift_div_l; [done|]. lra.
  - apply Qle_shift_div_r; [done|]. lra.
Qed.

Lemma rescale_lo (lo hi : Q) : (lo < hi)%Q -> (255 * (lo - lo) / (hi - lo) == 0)%Q.
Proof. intros H. field. lra. Qed.

Lemma rescale_hi (lo hi : Q) : (lo < hi)%Q -> (255 * (hi - lo) / (hi - lo) == 255)%Q.
Proof. intros H. field. lra. Qed.

End Cast.

(** ** Normalisation: the rescaling branch *)

Section Normalisation.

Lemma reduce_min_int (l : list Q) (a : Z) :
  inject_Z a ∈ l ->
  (forall y, y ∈ l -> exists z, y = inject_Z z /\ a <= z) ->
  reduce min_q l = Some (inject_Z a).
Proof.
  intros Hin Hall.
  destruct (reduce_is_Some min_q l) as [m Hm]; [by intros ->; inversion Hin|].
  rewrite Hm. f_equal.
  destruct (reduce_min_spec _ _ Hm) as [Hml Hle].
  destruct (Hall _ Hml) as (z & -> & Hz).
  specialize (Hle _ Hin). rewrite <- Zle_Qle in Hle.
  f_equal. lia.
Qed.

Lemma reduce_max_int (l : list Q) (b : Z) :
  inject_Z b ∈ l ->
  (forall y, y ∈ l -> exists z, y = inject_Z z /\ z <= b) ->
  reduce max_q l = Some (inject_Z b).
Proof.
  intros Hin Hall.
  destruct (reduce_is_Some max_q l) as [m Hm]; [by intros ->; inversion Hin|].
  rewrite Hm. f_equal.
  destruct (reduce_max_spec _ _ Hm) as [Hml Hle].
  destruct (Hall _ Hml) as (z & -> & Hz).
  specialize (Hle _ Hin). rewrite <- Zle_Qle in Hle.
  f_equal. lia.
Qed.

Lemma normalize_unfold (frame : ndarray) (lo hi : Q) :
  dtype_of frame <> uint8 ->
  reduce min_q (data frame) = Some lo ->
  reduce max_q (data frame) = Some hi ->
  normalize frame =
    inr (mk_ndarray uint8 (shape frame)
           (if negb (Qeq_bool hi lo)
            then (fun x => inject_Z (to_uint8 (255 * (x - lo) / (hi - lo)))) <$> data frame
            else replicate (length (data frame)) 0%Q)).
Proof.
  intros Hdt Hlo Hhi. unfold normalize, Np.min, Np.max.
  destruct (dtype_eqb (dtype_of frame) uint8) eqn:E.
  { destruct (dtype_of frame); done. }
  simpl. rewrite Hlo, Hhi.
  destruct (negb (Qeq_bool hi lo)); unfold astype_uint8; simpl; do 2 f_equal.
  - rewrite <- !list_fmap_compose. done.
  - rewrite <- list_fmap_compose. generalize (data frame). clear.
    intros l. induction l as [|x l IH]; [done|].
    simpl. f_equal. exact IH.
Qed.

End Normalisation.



(** C2. A frame whose dtype is already [uint8] is left as it is: no sample,
    shape or dtype changes, and the frame handed to the encoder by the loops
    is the slice that was read. *)
Theorem normalize_uint8_identity (frame : ndarray) :
  dtype_of frame = uint8 ->
  normalize frame = inr frame /\
  forall (E : env) (mode : option string) (arr : ndarray) (i : nat),
    getitem arr i = inr frame -> encode_frame E mode arr i = fromarray E frame mode.
Proof.
  intros H. assert (Hn : normalize frame = inr frame).
  { unfold normalize. by rewrite H. }
  split; [done|]. intros E mode arr i Hg. unfold encode_frame. by rewrite Hg, Hn.
Qed.

Lemma normalize_uint8_identity_witness :
  normalize (mk_ndarray uint8 [1;3]%nat (inject_Z <$> [7; 200; 1]))
  = inr (mk_ndarray uint8 [1;3]%nat (inject_Z <$> [7; 200; 1])).
Proof. apply normalize_uint8_identity. reflexivity. Defined.

Lemma normalize_uint8 (frame : ndarray) :
  dtype_of frame = uint8 -> normalize frame = inr frame.
Proof. intros H. unfold normalize. by rewrite H. Qed.

(** Normalisation never changes the shape, and always ends in [uint8]. *)
Lemma normalize_shape (frame out : ndarray) :
  normalize frame = inr out -> shape out = shape frame /\ dtype_of out = uint8.
Proof.
  unfold normalize. destruct (dtype_eqb (dtype_of frame) uint8) eqn:E; simpl.
  - intros [= <-]. split; [done|]. by destruct (dtype_of frame).
  - destruct (Np.min _); [done|]. destruct (Np.max _); [done|].
    intros [= <-]. by destruct (negb _).
Qed.

Lemma normalize_ok (frame : ndarray) :
  dtype_of frame = uint8 \/ data frame <> [] -> exists out, normalize frame = inr out.
Proof.
  intros [H|H].
  - exists frame. by apply normalize_uint8.
  - destruct (decide (dtype_of frame = uint8)) as [Hd|Hd].
    + exists frame. by apply normalize_uint8.
    + destruct (reduce_is_Some min_q _ H) as [lo Hlo].
      destruct (reduce_is_Some max_q _ H) as [hi Hhi].
      eexists. by apply (normalize_unfold frame lo hi).
Qed.

(** ** Reasoning about the monad *)

Section MonadLaws.

Context {A B : Type}.

Lemma bind_inr (c : M A) (k : A -> M B) (w w1 : world) (x : A) :
  c w = (inr x, w1) -> bind c k w = k x w1.
Proof. intros H. unfold bind. by rewrite H. Qed.

Lemma bind_inl (c : M A) (k : A -> M B) (w w1 : world) (e : exn) :
  c w = (inl e, w1) -> bind c k w = (inl e, w1).
Proof. intros H. unfold bind. by rewrite H. Qed.

Lemma bind_lift_inr (r : result A) (k : A -> M B) (w : world) (x : A) :
  r = inr x -> bind (lift r) k w = k x w.
Proof. by intros ->. Qed.

Lemma bind_lift_inl (r : result A) (k : A -> M B) (w : world) (e : exn) :
  r = inl e -> bind (lift r) k w = (inl e, w).
Proof. by intros ->. Qed.

End MonadLaws.

(** A relation between the world before and the world after that every
    step of a computation respects is respected by the whole computation. *)
Section Preserves.

Variable P : world -> world -> Prop.
Hypothesis P_refl : forall w, P w w.
Hypothesis P_trans : forall w1 w2 w3, P w1 w2 -> P w2 w3 -> P w1 w3.

Lemma preserves_ret {A : Type} (x : A) : preserves P (ret x).
Proof using P_refl. intros w r w' [= _ <-]. apply P_refl. Qed.

Lemma preserves_raise {A : Type} (e : exn) : preserves P (@raise A e).
Proof using P_refl. intros w r w' [= _ <-]. apply P_refl. Qed.

Lemma preserves_lift {A : Type} (r : result A) : preserves P (lift r).
Proof using P_refl. destruct r; [apply preserves_raise | apply preserves_ret]. Qed.

Lemma preserves_bind {A B : Type} (c : M A) (k : A -> M B) :
  preserves P c -> (forall x, preserves P (k x)) -> preserves P (bind c k).
Proof using P_trans.
  intros Hc Hk w r w'. unfold bind.
  destruct (c w) as [[e|x] w1] eqn:Hcw.
  - intros [= _ <-]. by eapply Hc.
  - intros Hkw. eapply P_trans; [by eapply Hc | by eapply Hk].
Qed.

Lemma preserves_try_except {A : Type} (c : M A) (h : exn -> M A) :
  preserves P c -> (forall e, preserves P (h e)) -> preserves P (try_except c h).
Proof using P_trans.
  intros Hc Hh w r w'. unfold try_except.
  destruct (c w) as [[e|x] w1] eqn:Hcw.
  - intros Hhw. eapply P_trans; [by eapply Hc | by eapply Hh].
  - intros [= _ <-]. by eapply Hc.
Qed.

Lemma preserves_for_each {A : Type} (l : list A) (body : A -> M unit) :
  (forall x, x ∈ l -> preserves P (body x)) -> preserves P (for_each l body).
Proof using P_refl P_trans.
  induction l as [|x l IH]; intros Hb; simpl.
  - apply preserves_ret.
  - apply preserves_bind.
    + apply Hb. apply list_elem_of_here.
    + intros _. apply IH. intros y Hy. apply Hb. by apply list_elem_of_further.
Qed.

End Preserves.

(** ** The relations between worlds *)

Section Relations.

Lemma same_dirs_refl w : same_dirs w w.
Proof. done. Qed.
Lemma same_dirs_trans w1 w2 w3 : same_dirs w1 w2 -> same_dirs w2 w3 -> same_dirs w1 w3.
Proof. unfold same_dirs. congruence. Qed.

Lemma same_stdout_refl w : same_stdout w w.
Proof. done. Qed.
Lemma same_stdout_trans w1 w2 w3 : same_stdout w1 w2 -> same_stdout w2 w3 -> same_stdout w1 w3.
Proof. unfold same_stdout. congruence. Qed.

Lemma same_files_refl w : same_files w w.
Proof. done. Qed.
Lemma same_files_trans w1 w2 w3 : same_files w1 w2 -> same_files w2 w3 -> same_files w1 w3.
Proof. unfold same_files. congruence. Qed.

Lemma files_differ_within_refl S w : files_differ_within S w w.
Proof. done. Qed.
Lemma files_differ_within_trans S w1 w2 w3 :
  files_differ_within S w1 w2 -> files_differ_within S w2 w3 -> files_differ_within S w1 w3.
Proof. intros H1 H2 p Hp. rewrite H2, H1; done. Qed.

Lemma dirs_grow_refl w : dirs_grow w w.
Proof. unfold dirs_grow. reflexivity. Qed.
Lemma dirs_grow_trans w1 w2 w3 : dirs_grow w1 w2 -> dirs_grow w2 w3 -> dirs_grow w1 w3.
Proof. unfold dirs_grow. intros H1 H2. by transitivity (dirs w2). Qed.

End Relations.

Create HintDb world.

#[local] Hint Resolve same_dirs_refl same_dirs_trans same_stdout_refl same_stdout_trans
  same_files_refl same_files_trans files_differ_within_refl files_differ_within_trans
  dirs_grow_refl dirs_grow_trans : world.

(** ** Frame names are distinct *)

Section Names.

Local Open Scope string_scope.

Lemma string_length_app (s t : string) :
  String.length (s ++ t) = (String.length s + String.length t)%nat.
Proof. induction s as [|c s IH]; simpl; [done|]. by rewrite IH. Qed.

Lemma string_app_inj_r (t s1 s2 : string) : s1 ++ t = s2 ++ t -> s1 = s2.
Proof.
  revert s2. induction s1 as [|c s1 IH]; intros [|d s2] H; simpl in *.
  - done.
  - apply (f_equal String.length) in H. rewrite !string_length_app in H. simpl in H. lia.
  - apply (f_equal String.length) in H. rewrite !string_length_app in H. simpl in H. lia.
  - injection H as -> H. f_equal. by apply IH.
Qed.

Lemma zeros_nonnil (k : nat) (d : Decimal.uint) : d <> Decimal.Nil -> zeros k d <> Decimal.Nil.
Proof. destruct k; simpl; [done|]. intros _. discriminate. Qed.

Lemma of_uint_zeros (k : nat) (d : Decimal.uint) : Nat.of_uint (zeros k d) = Nat.of_uint d.
Proof. induction k as [|k IH]; simpl; [done|]. exact IH. Qed.

Lemma to_uint_nonnil (n : nat) : Nat.to_uint n <> Decimal.Nil.
Proof.
  rewrite <- (DecimalNat.Unsigned.of_to n) at 1.
  rewrite DecimalNat.Unsigned.to_of. apply DecimalFacts.unorm_nonnil.
Qed.

(** Reading the digits of [format_04d i] back gives [i]. *)
Lemma format_04d_read (i : nat) :
  Nat.of_uint <$> NilEmpty.uint_of_string (format_04d i) = Some i.
Proof.
  unfold format_04d.
  rewrite NilEmpty.usu by (apply zeros_nonnil, to_uint_nonnil).
  simpl. by rewrite of_uint_zeros, DecimalNat.Unsigned.of_to.
Qed.

Lemma format_04d_inj (i j : nat) : format_04d i = format_04d j -> i = j.
Proof.
  intros H. pose proof (format_04d_read i) as Hi. rewrite H, format_04d_read in Hi.
  congruence.
Qed.

Lemma frame_name_inj (i j : nat) : frame_name i = frame_name j -> i = j.
Proof.
  unfold frame_name. intros H. apply String.app_inj in H.
  apply string_app_inj_r in H. by apply format_04d_inj.
Qed.

Lemma frame_name_relative (i : nat) : starts_with_sep (frame_name i) = false.
Proof. reflexivity. Qed.

(** A relative name is appended to the folder, after a glue that depends
    on the folder only. *)
Lemma join_relative (a b : string) :
  starts_with_sep b = false ->
  join a b = a ++ (if (String.eqb a "" || ends_with_sep a)%bool then "" else "/") ++ b.
Proof. intros H. unfold join. rewrite H. by destruct (_ || _)%bool. Qed.

Lemma frame_path_inj (out_path : string) (i j : nat) :
  join out_path (frame_name i) = join out_path (frame_name j) -> i = j.
Proof.
  rewrite !join_relative by apply frame_name_relative.
  intros H. apply String.app_inj in H. apply String.app_inj in H.
  by apply frame_name_inj.
Qed.

End Names.

(** Below 10000 the index is written with exactly four digits. *)
Lemma format_04d_length (i : nat) :
  (i < 100 * 100)%nat -> String.length (format_04d i) = 4%nat.
Proof.
  intros Hi.
  assert (H : forallb (fun i => (String.length (format_04d i) =? 4)%nat) (seq 0 (100 * 100)) = true)
    by (vm_compute; reflexivity).
  rewrite forallb_forall in H. apply Nat.eqb_eq, H, in_seq. lia.
Qed.

(** ** The primitive operations *)

Ltac prim_inv :=
  let w := fresh "w" in let r := fresh "r" in let w' := fresh "w'" in
  let H := fresh "H" in
  intros w r w' H;
  unfold print, path_exists, makedirs, save in H;
  repeat case_match; simplify_eq; simpl.

Section Primitives.

Variable E : env.

Lemma print_same_dirs d : preserves same_dirs (print d).
Proof. prim_inv. done. Qed.

Lemma print_same_files d : preserves same_files (print d).
Proof. prim_inv. done. Qed.

Lemma print_files_within S d : preserves (files_differ_within S) (print d).
Proof. prim_inv. done. Qed.

Lemma save_same_dirs img p : preserves same_dirs (save E img p).
Proof. prim_inv; done. Qed.

Lemma save_same_stdout img p : preserves same_stdout (save E img p).
Proof. prim_inv; done. Qed.

Lemma save_files_within (S : string -> Prop) img p :
  S p -> preserves (files_differ_within S) (save E img p).
Proof.
  intros HS. prim_inv; [done|]. intros q Hq. simpl.
  apply lookup_insert_ne. intros ->. done.
Qed.

Lemma makedirs_same_files p : preserves same_files (makedirs E p).
Proof. prim_inv; done. Qed.

Lemma makedirs_dirs_grow p : preserves dirs_grow (makedirs E p).
Proof. prim_inv; unfold dirs_grow; simpl; set_solver. Qed.

Lemma path_exists_run p w :
  path_exists p w
  = (inr (bool_decide (p ∈ dirs w) || bool_decide (is_Some (files w !! p)))%bool, w).
Proof. done. Qed.

End Primitives.

(** ** Slices of an array *)

Section Slices.

Lemma getitem_ok (arr : ndarray) (n : nat) (sh : list nat) (i : nat) :
  shape arr = n :: sh -> (i < n)%nat ->
  getitem arr i
  = inr (mk_ndarray (dtype_of arr) sh (take (size_of sh) (drop (i * size_of sh) (data arr)))).
Proof.
  intros Hs Hi. unfold getitem. rewrite Hs.
  destruct (i <? n)%nat eqn:Hlt; [done|]. apply Nat.ltb_ge in Hlt. lia.
Qed.

Lemma getitem_inv (arr frame : ndarray) (i : nat) :
  getitem arr i = inr frame ->
  shape frame = tail (shape arr) /\ dtype_of frame = dtype_of arr /\
  (i < num_frames arr)%nat /\ ndim arr = S (ndim frame).
Proof.
  unfold getitem, num_frames, ndim. destruct (shape arr) as [|n sh]; [done|].
  destruct (i <? n)%nat eqn:Hlt; [|done]. apply Nat.ltb_lt in Hlt.
  intros [= <-]. done.
Qed.

(** Inside the loops the index is always in range. *)
Lemma getitem_in_range (arr : ndarray) (i : nat) :
  (0 < ndim arr)%nat -> (i < num_frames arr)%nat -> exists frame, getitem arr i = inr frame.
Proof.
  unfold ndim, num_frames. destruct (shape arr) as [|n sh] eqn:Hs; simpl; [lia|].
  intros _ Hi. eexists. by eapply getitem_ok.
Qed.

Lemma getitem_nonempty (arr frame : ndarray) (i : nat) :
  wf arr -> (0 < size_of (tail (shape arr)))%nat ->
  getitem arr i = inr frame -> data frame <> [].
Proof.
  unfold wf, getitem. destruct (shape arr) as [|n sh]; [done|]. simpl.
  destruct (i <? n)%nat eqn:Hlt; [|done]. apply Nat.ltb_lt in Hlt.
  intros Hlen Hpos [= <-]. simpl. intros Hnil.
  apply (f_equal length) in Hnil. rewrite length_take, length_drop, Hlen in Hnil.
  simpl in Hnil. nia.
Qed.

Lemma frames_normalize (arr frame : ndarray) (i : nat) :
  frames_normalizable arr -> getitem arr i = inr frame ->
  exists out, normalize frame = inr out.
Proof.
  intros Hn Hg. apply normalize_ok. destruct Hn as [Hu|[Hwf Hpos]].
  - left. apply getitem_inv in Hg as (_ & -> & _). done.
  - right. by eapply getitem_nonempty.
Qed.

End Slices.

(** ** The loops over the frames *)

Section Loops.

Variable E : env.

Lemma frame_step_rank4_eq (out_path : string) (arr : ndarray) (i : nat) (w : world) :
  frame_step_rank4 E out_path arr i w = save_step E (encode_frame E None arr) out_path i w.
Proof.
  unfold frame_step_rank4, save_step, encode_frame.
  destruct (getitem arr i) as [e|f0]; simpl; [done|].
  unfold bind at 1. simpl.
  destruct (normalize f0) as [e|f]; simpl; done.
Qed.

(** A slice of a rank-3 array has rank 2, before and after normalisation. *)
Lemma rank3_slice_rank2 (arr f0 f : ndarray) (i : nat) :
  ndim arr = 3%nat -> getitem arr i = inr f0 -> normalize f0 = inr f ->
  ndim f0 = 2%nat /\ ndim f = 2%nat.
Proof.
  intros Hr Hg Hn. apply getitem_inv in Hg as (_ & _ & _ & Hnd).
  apply normalize_shape in Hn as [Hs _]. unfold ndim in *. rewrite Hs. lia.
Qed.

Lemma frame_step_rank3_eq (out_path : string) (arr : ndarray) (i : nat) (w : world) :
  ndim arr = 3%nat ->
  frame_step_rank3 E out_path arr i w
  = save_step E (encode_frame E (Some "L"%string) arr) out_path i w.
Proof.
  intros Hr. unfold frame_step_rank3, save_step, encode_frame.
  destruct (getitem arr i) as [e|f0] eqn:Hg; simpl; [done|].
  unfold bind at 1. simpl.
  destruct (normalize f0) as [e|f] eqn:Hn; simpl; [done|].
  destruct (rank3_slice_rank2 arr f0 f i Hr Hg Hn) as [_ Hf].
  unfold bind at 1. simpl. by rewrite Hf.
Qed.

Lemma save_step_ok (enc : nat -> result image) (out_path : string) (i : nat)
    (img : image) (w : world) :
  writable E -> enc i = inr img ->
  save_step E enc out_path i w
  = (inr tt, mk_world (stdout w) (dirs w) (<[join out_path (frame_name i) := img]> (files w))).
Proof.
  intros Hw He. unfold save_step. rewrite (bind_lift_inr _ _ _ img He).
  unfold save. by rewrite Hw.
Qed.

(** When every frame encodes and every write succeeds, the loop ends
    normally and has written every frame. *)
Lemma for_each_saves (enc : nat -> result image) (img : nat -> image)
    (out_path : string) (l : list nat) (w : world) :
  writable E ->
  (forall i, i ∈ l -> enc i = inr (img i)) ->
  for_each l (save_step E enc out_path) w
  = (inr tt, mk_world (stdout w) (dirs w) (put_frames out_path img l (files w))).
Proof.
  intros Hw. revert w. induction l as [|i l IH]; intros w Henc; simpl.
  - by destruct w.
  - erewrite bind_inr; last first.
    { apply save_step_ok; [done|]. apply Henc, list_elem_of_here. }
    rewrite IH; [done|]. intros j Hj. apply Henc. by apply list_elem_of_further.
Qed.

Lemma put_frames_other (out_path : string) (img : nat -> image) (l : list nat)
    (fs : gmap string image) (p : string) :
  (forall i, i ∈ l -> p <> join out_path (frame_name i)) ->
  put_frames out_path img l fs !! p = fs !! p.
Proof.
  revert fs. induction l as [|i l IH]; intros fs Hp; simpl; [done|].
  rewrite IH by (intros j Hj; apply Hp; by apply list_elem_of_further).
  apply lookup_insert_ne. intros Heq. eapply Hp; [apply list_elem_of_here|done].
Qed.

Lemma put_frames_lookup (out_path : string) (img : nat -> image) (l : list nat)
    (fs : gmap string image) (i : nat) :
  i ∈ l -> put_frames out_path img l fs !! join out_path (frame_name i) = Some (img i).
Proof.
  revert fs. induction l as [|j l IH]; intros fs Hi; [by inversion Hi|]. simpl.
  destruct (decide (i ∈ l)) as [Hin|Hnin]; [by apply IH|].
  apply elem_of_cons in Hi as [->|Hi]; [|done].
  rewrite put_frames_other.
  - apply lookup_insert_eq.
  - intros k Hk Heq. apply frame_path_inj in Heq. by subst.
Qed.

(** Whatever happens, a loop of [save_step] prints nothing, creates no
    directory, and touches the files of its own frames only. *)
Lemma save_step_same_stdout enc out_path i : preserves same_stdout (save_step E enc out_path i).
Proof.
  apply preserves_bind; eauto with world.
  - apply preserves_lift; eauto with world.
  - intros img. apply save_same_stdout.
Qed.

Lemma save_step_same_dirs enc out_path i : preserves same_dirs (save_step E enc out_path i).
Proof.
  apply preserves_bind; eauto with world.
  - apply preserves_lift; eauto with world.
  - intros img. apply save_same_dirs.
Qed.

Lemma save_step_files_within (S : string -> Prop) enc out_path i :
  S (join out_path (frame_name i)) ->
  preserves (files_differ_within S) (save_step E enc out_path i).
Proof.
  intros HS. apply preserves_bind; eauto with world.
  - apply preserves_lift; eauto with world.
  - intros img. by apply save_files_within.
Qed.

Lemma save_loop_same_stdout enc out_path n :
  preserves same_stdout (for_range n (save_step E enc out_path)).
Proof.
  apply preserves_for_each; eauto with world. intros i _. apply save_step_same_stdout.
Qed.

Lemma save_loop_same_dirs enc out_path n :
  preserves same_dirs (for_range n (save_step E enc out_path)).
Proof.
  apply preserves_for_each; eauto with world. intros i _. apply save_step_same_dirs.
Qed.

Lemma save_loop_files_within enc out_path n :
  preserves (files_differ_within (frame_paths out_path n)) (for_range n (save_step E enc out_path)).
Proof.
  apply preserves_for_each; eauto with world. intros i Hi.
  apply save_step_files_within. exists i. split; [|done].
  apply elem_of_seq in Hi. lia.
Qed.

End Loops.

(** ** What a whole run preserves *)

Lemma preserves_ext (P : world -> world -> Prop) {A : Type} (c c' : M A) :
  (forall w, c w = c' w) -> preserves P c' -> preserves P c.
Proof. intros Heq Hc w r w' H. rewrite Heq in H. by eapply Hc. Qed.

Section RunPreserves.

Variable E : env.
Variable P : world -> world -> Prop.
Variable S : string -> Prop.
Hypothesis P_refl : forall w, P w w.
Hypothesis P_trans : forall w1 w2 w3, P w1 w2 -> P w2 w3 -> P w1 w3.
Hypothesis P_print : forall d, preserves P (print d).
Hypothesis P_save : forall img p, S p -> preserves P (save E img p).

Lemma frame_step_rank3_preserves (out_path : string) (arr : ndarray) (i : nat) :
  S (join out_path (frame_name i)) -> preserves P (frame_step_rank3 E out_path arr i).
Proof using P_refl P_trans P_print P_save.
  intros HS. unfold frame_step_rank3.
  apply preserves_bind; [done|by apply preserves_lift|]. intros f0.
  apply preserves_bind; [done|by apply preserves_lift|]. intros f.
  destruct (ndim f =? 2)%nat.
  { apply preserves_bind; [done|by apply preserves_lift|]. intros img. by apply P_save. }
  destruct (_ && _)%bool.
  { apply preserves_bind; [done|by apply preserves_lift|]. intros img. by apply P_save. }
  apply P_print.
Qed.

Lemma frame_step_rank4_preserves (out_path : string) (arr : ndarray) (i : nat) :
  S (join out_path (frame_name i)) -> preserves P (frame_step_rank4 E out_path arr i).
Proof using P_refl P_trans P_save.
  intros HS. unfold frame_step_rank4.
  apply preserves_bind; [done|by apply preserves_lift|]. intros f0.
  apply preserves_bind; [done|by apply preserves_lift|]. intros f.
  apply preserves_bind; [done|by apply preserves_lift|]. intros img. by apply P_save.
Qed.

Lemma dispatch_preserves (dicom_filepath base out_path : string) (arr : ndarray) :
  (ndim arr = 2%nat -> S (join out_path "single_frame.png")) ->
  (ndim arr = 3%nat \/ ndim arr = 4%nat ->
   forall i, (i < num_frames arr)%nat -> S (join out_path (frame_name i))) ->
  preserves P (dispatch E dicom_filepath base out_path arr).
Proof using P_refl P_trans P_print P_save.
  intros H2 H34. unfold dispatch.
  destruct (ndim arr =? 3)%nat eqn:E3.
  { apply Nat.eqb_eq in E3.
    apply preserves_bind; [done|apply P_print|]. intros _.
    apply preserves_bind; [done| |intros _; apply P_print].
    apply preserves_for_each; [done|done|]. intros i Hi.
    apply frame_step_rank3_preserves. apply H34; [by left|].
    apply elem_of_seq in Hi. lia. }
  destruct (ndim arr =? 4)%nat eqn:E4.
  { apply Nat.eqb_eq in E4.
    apply preserves_bind; [done|apply P_print|]. intros _.
    apply preserves_bind; [done| |intros _; apply P_print].
    apply preserves_for_each; [done|done|]. intros i Hi.
    apply frame_step_rank4_preserves. apply H34; [by right|].
    apply elem_of_seq in Hi. lia. }
  destruct (ndim arr =? 2)%nat eqn:E2.
  { apply Nat.eqb_eq in E2.
    apply preserves_bind; [done|apply P_print|]. intros _.
    apply preserves_bind; [done|by apply preserves_lift|]. intros f.
    apply preserves_bind; [done|by apply preserves_lift|]. intros img.
    apply preserves_bind; [done| |intros _; apply P_print].
    apply P_save. by apply H2. }
  apply P_print.
Qed.

Hypothesis P_makedirs : forall p, preserves P (makedirs E p).

Lemma preserves_bind_lift {A B : Type} (r : result A) (k : A -> M B) :
  (forall x, r = inr x -> preserves P (k x)) -> preserves P (bind (lift r) k).
Proof using P_refl.
  destruct r as [e|x]; intros Hk w r' w'; simpl; unfold bind, raise, ret.
  - intros [= _ <-]. apply P_refl.
  - by apply Hk.
Qed.

Lemma try_body_preserves (dicom_filepath base : string) :
  (forall ds arr, dcmread E dicom_filepath = inr ds -> pixel_array ds = inr arr ->
     may_write S (specific_output_path E dicom_filepath base) arr) ->
  preserves P (try_body E dicom_filepath base).
Proof using P_refl P_trans P_print P_save P_makedirs.
  intros HS. unfold try_body.
  apply preserves_bind_lift. intros ds Hds.
  destruct (negb (tag_in PixelData ds)).
  { apply preserves_bind; [done|apply P_print|]. intros _.
    destruct (tag_in _ _); [apply P_print|by apply preserves_ret]. }
  apply preserves_bind_lift. intros arr Harr.
  apply preserves_bind; [done| |].
  { intros w r w'. rewrite path_exists_run. intros [= _ <-]. apply P_refl. }
  intros present. apply preserves_bind; [done| |].
  { destruct (negb present); [apply P_makedirs|by apply preserves_ret]. }
  intros _. destruct (HS ds arr Hds Harr). by apply dispatch_preserves.
Qed.

Lemma handler_preserves (dicom_filepath : string) (e : exn) :
  preserves P (handler dicom_filepath e).
Proof using P_print. destruct e; apply P_print. Qed.

Lemma extract_preserves (dicom_filepath base : string) :
  (forall ds arr, dcmread E dicom_filepath = inr ds -> pixel_array ds = inr arr ->
     may_write S (specific_output_path E dicom_filepath base) arr) ->
  preserves P (extract_frames_from_dicom E dicom_filepath base).
Proof using P_refl P_trans P_print P_save P_makedirs.
  intros HS. unfold extract_frames_from_dicom.
  apply preserves_bind; [done|apply P_print|]. intros _.
  apply preserves_try_except; [done| |].
  - by apply try_body_preserves.
  - apply handler_preserves.
Qed.

End RunPreserves.

(** ** Running the extraction *)

Section Run.

Variable E : env.

Lemma print_run (d : diagnostic) (w : world) : print d w = (inr tt, printed d w).
Proof. done. Qed.

Lemma save_run (img : image) (p : string) (w : world) :
  save_error E w img p = None -> save E img p w = (inr tt, written p img w).
Proof. intros H. unfold save. by rewrite H. Qed.

Lemma handler_run (dicom_filepath : string) (e : exn) (w : world) :
  handler dicom_filepath e w = (inr tt, printed (handler_diagnostic dicom_filepath e) w).
Proof. by destruct e. Qed.

Lemma extract_unfold (dicom_filepath base : string) (w : world) :
  extract_frames_from_dicom E dicom_filepath base w
  = try_except (try_body E dicom_filepath base) (handler dicom_filepath)
      (printed (MsgProcessing (basename dicom_filepath)) w).
Proof. done. Qed.

Lemma extract_ok (dicom_filepath base : string) (w w' : world) :
  try_body E dicom_filepath base (printed (MsgProcessing (basename dicom_filepath)) w)
    = (inr tt, w') ->
  extract_frames_from_dicom E dicom_filepath base w = (inr tt, w').
Proof. intros H. rewrite extract_unfold. unfold try_except. by rewrite H. Qed.

Lemma extract_caught (dicom_filepath base : string) (w w1 : world) (e : exn) :
  try_body E dicom_filepath base (printed (MsgProcessing (basename dicom_filepath)) w)
    = (inl e, w1) ->
  extract_frames_from_dicom E dicom_filepath base w
  = (inr tt, printed (handler_diagnostic dicom_filepath e) w1).
Proof. intros H. rewrite extract_unfold. unfold try_except. rewrite H. apply handler_run. Qed.

(** The extraction always returns normally. *)
Lemma extract_returns (dicom_filepath base : string) (w : world) :
  exists w', extract_frames_from_dicom E dicom_filepath base w = (inr tt, w').
Proof.
  destruct (try_body E dicom_filepath base
              (printed (MsgProcessing (basename dicom_filepath)) w)) as [[e|[]] w1] eqn:H.
  - eexists. by apply extract_caught.
  - eexists. by apply extract_ok.
Qed.

(** Up to the dispatch: the object decodes, holds pixel data, the pixels
    decode, and the folder can be created. *)
Lemma try_body_dispatch (dicom_filepath base : string) (w : world)
    (ds : dataset) (arr : ndarray) :
  dcmread E dicom_filepath = inr ds ->
  tag_in PixelData ds = true ->
  pixel_array ds = inr arr ->
  can_mkdir E ->
  try_body E dicom_filepath base w
  = dispatch E dicom_filepath base (specific_output_path E dicom_filepath base) arr
      (ensure_folder (specific_output_path E dicom_filepath base) w).
Proof.
  intros Hds Htag Harr Hmk. unfold try_body.
  rewrite (bind_lift_inr _ _ _ ds Hds), Htag. simpl.
  rewrite (bind_lift_inr _ _ _ arr Harr).
  erewrite bind_inr by apply path_exists_run.
  unfold ensure_folder.
  destruct (_ || _)%bool; simpl.
  - done.
  - erewrite bind_inr; [done|]. unfold makedirs. by rewrite Hmk.
Qed.

End Run.

(** ** More frame conditions of the primitive operations *)

Section MoreFrames.

Variable E : env.

Lemma print_dirs_grow d : preserves dirs_grow (print d).
Proof. prim_inv. unfold dirs_grow. done. Qed.

Lemma save_dirs_grow img p : preserves dirs_grow (save E img p).
Proof. prim_inv; unfold dirs_grow; done. Qed.

Lemma makedirs_files_within S p : preserves (files_differ_within S) (makedirs E p).
Proof. prim_inv; done. Qed.

Lemma ensure_folder_files p w : files (ensure_folder p w) = files w.
Proof. unfold ensure_folder. by destruct (_ || _)%bool. Qed.

Lemma ensure_folder_stdout p w : stdout (ensure_folder p w) = stdout w.
Proof. unfold ensure_folder. by destruct (_ || _)%bool. Qed.

Lemma ensure_folder_dirs p w : files w !! p = None -> p ∈ dirs (ensure_folder p w).
Proof.
  intros Hf. unfold ensure_folder. rewrite Hf.
  destruct (bool_decide (p ∈ dirs w)) eqn:Hd; simpl.
  - by apply bool_decide_eq_true in Hd.
  - apply elem_of_union_l, elem_of_singleton. done.
Qed.

End MoreFrames.

(** ** Rank 2 *)

(** C3. When the pixel buffer has rank 2, the only file that the extraction
    can touch is [single_frame.png] in the folder of the source; and when the
    folder can be created, the frame normalises, the encoder accepts it in
    mode L and the file can be written, the extraction returns normally and
    has written exactly that one file, holding the grayscale (explicit mode
    ['L']) encoding of the normalised buffer. *)
Theorem rank2_single_frame (E : env) (dicom_filepath base : string) (w : world)
    (ds : dataset) (arr : ndarray) :
  dcmread E dicom_filepath = inr ds ->
  tag_in PixelData ds = true ->
  pixel_array ds = inr arr ->
  ndim arr = 2%nat ->
  exists w',
    extract_frames_from_dicom E dicom_filepath base w = (inr tt, w') /\
    (forall p, p <> join (specific_output_path E dicom_filepath base) "single_frame.png" ->
       files w' !! p = files w !! p) /\
    (can_mkdir E -> writable E ->
     (dtype_of arr = uint8 \/ data arr <> []) ->
     (forall f, normalize arr = inr f -> exists img, fromarray E f (Some "L"%string) = inr img) ->
     exists frame img,
       normalize arr = inr frame /\
       dtype_of frame = uint8 /\ shape frame = shape arr /\
       fromarray E frame (Some "L"%string) = inr img /\
       files w'
       = <[join (specific_output_path E dicom_filepath base) "single_frame.png" := img]> (files w) /\
       stdout w'
       = stdout w ++ [MsgProcessing (basename dicom_filepath); MsgFoundSingleFrame;
                      MsgSavedSingleFrame
                        (join3 base (specific_output_folder_name dicom_filepath)
                           "single_frame.png")]).
Proof.
  intros Hds Htag Harr Hnd.
  destruct (extract_returns E dicom_filepath base w) as [w' Hrun].
  exists w'. split; [done|]. split.
  - intros p Hp.
    eapply (extract_preserves E
              (files_differ_within
                 (fun q => q = join (specific_output_path E dicom_filepath base) "single_frame.png"))
              (fun q => q = join (specific_output_path E dicom_filepath base) "single_frame.png"));
      eauto using print_files_within, save_files_within, makedirs_files_within with world.
    intros ds' arr' Hds' Harr'. assert (ds' = ds) by congruence. subst ds'.
    assert (arr' = arr) by congruence. subst arr'.
    split; [done|]. intros [H|H]; rewrite Hnd in H; discriminate.
  - intros Hmk Hwr Hnorm Henc.
    destruct (normalize_ok arr Hnorm) as [frame Hframe].
    destruct (Henc frame Hframe) as [img Himg].
    destruct (normalize_shape _ _ Hframe) as [Hsh Hdt].
    exists frame, img. do 4 (split; [done|]).
    assert (Hw' : extract_frames_from_dicom E dicom_filepath base w
                  = (inr tt,
                     printed (MsgSavedSingleFrame
                                (join3 base (specific_output_folder_name dicom_filepath)
                                   "single_frame.png"))
                       (written (join (specific_output_path E dicom_filepath base) "single_frame.png") img
                          (printed MsgFoundSingleFrame
                             (ensure_folder (specific_output_path E dicom_filepath base)
                                (printed (MsgProcessing (basename dicom_filepath)) w)))))).
    { apply extract_ok. rewrite (try_body_dispatch E _ _ _ ds arr); try done.
      unfold dispatch. rewrite Hnd. simpl.
      erewrite bind_inr by apply print_run.
      rewrite (bind_lift_inr _ _ _ frame Hframe).
      rewrite (bind_lift_inr _ _ _ img Himg).
      erewrite bind_inr by (apply save_run; apply Hwr).
      apply print_run. }
    rewrite Hw' in Hrun. injection Hrun as <-. simpl.
    rewrite ensure_folder_files, ensure_folder_stdout. simpl.
    split; [done|]. rewrite <- !app_assoc. reflexivity.
Qed.

Lemma rank2_single_frame_witness :
  exists w' img,
    extract_frames_from_dicom Demo.demo_env "/in/single.dcm" "extracted_images" empty_world
    = (inr tt, w') /\
    files w' = {[ "/opt/app/extracted_images/single_extracted/single_frame.png"%string := img ]} /\
    im_mode img = "L"%string.
Proof.
  destruct (rank2_single_frame Demo.demo_env "/in/single.dcm" "extracted_images" empty_world
              (mk_dataset [PixelData] (inr Demo.single)) Demo.single)
    as (w' & Hrun & _ & Hok); try reflexivity.
  destruct Hok as (frame & img & Hn & _ & _ & Himg & Hfiles & _).
  - intros ? ?. reflexivity.
  - intros ? ? ?. reflexivity.
  - left. reflexivity.
  - intros f _. eexists. reflexivity.
  - exists w', img. split; [exact Hrun|]. split; [exact Hfiles|].
    injection Himg as <-. reflexivity.
Defined.

(** ** No pixel data *)



(** ** Any other rank *)

(** C8. When the rank of the pixel buffer is not 2, 3 or 4, the extraction
    returns normally and no file is written or changed; when the folder of
    the source can be created, the only report is the warning about the
    dimensions of the pixel array. *)
Theorem unrecognized_rank_no_output (E : env) (dicom_filepath base : string) (w : world)
    (ds : dataset) (arr : ndarray) :
  dcmread E dicom_filepath = inr ds ->
  tag_in PixelData ds = true ->
  pixel_array ds = inr arr ->
  ndim arr <> 2%nat -> ndim arr <> 3%nat -> ndim arr <> 4%nat ->
  exists w',
    extract_frames_from_dicom E dicom_filepath base w = (inr tt, w') /\
    files w' = files w /\
    (can_mkdir E ->
     stdout w' = stdout w ++ [MsgProcessing (basename dicom_filepath);
                              WarnPixelArrayDimensions (ndim arr) (basename dicom_filepath)]).
Proof.
  intros Hds Htag Harr H2 H3 H4.
  destruct (extract_returns E dicom_filepath base w) as [w' Hrun].
  exists w'. split; [done|]. split.
  - eapply (extract_preserves E same_files (fun _ => False)
              same_files_refl same_files_trans print_same_files
              (fun img p (H : False) => False_ind _ H) (makedirs_same_files E));
      [|exact Hrun].
    intros ds' arr' Hds' Harr'. assert (ds' = ds) by congruence. subst ds'.
    assert (arr' = arr) by congruence. subst arr'.
    split; [done|]. by intros [?|?].
  - intros Hmk.
    assert (Hw' : extract_frames_from_dicom E dicom_filepath base w
                  = (inr tt,
                     printed (WarnPixelArrayDimensions (ndim arr) (basename dicom_filepath))
                       (ensure_folder (specific_output_path E dicom_filepath base)
                          (printed (MsgProcessing (basename dicom_filepath)) w)))).
    { apply extract_ok. rewrite (try_body_dispatch E _ _ _ ds arr); try done.
      unfold dispatch.
      apply Nat.eqb_neq in H2, H3, H4. rewrite H2, H3, H4. apply print_run. }
    rewrite Hw' in Hrun. injection Hrun as <-. simpl.
    rewrite ensure_folder_stdout. simpl. by rewrite <- !app_assoc.
Qed.

Lemma unrecognized_rank_no_output_witness :
  exists w',
    extract_frames_from_dicom Demo.demo_env "/in/volume5.dcm" "extracted_images" empty_world
    = (inr tt, w') /\
    files w' = ∅ /\
    stdout w' = [MsgProcessing "volume5.dcm"; WarnPixelArrayDimensions 5 "volume5.dcm"].
Proof.
  destruct (unrecognized_rank_no_output Demo.demo_env "/in/volume5.dcm" "extracted_images"
              empty_world (mk_dataset [PixelData] (inr Demo.volume5)) Demo.volume5)
    as (w' & Hrun & Hfiles & Hout); try reflexivity; try (vm_compute; lia).
  exists w'. split; [exact Hrun|]. split; [exact Hfiles|].
  apply Hout. intros ? ?. reflexivity.
Defined.

(** ** The folder of the source *)

Lemma dispatch_dirs_grow (E : env) (dicom_filepath base out_path : string) (arr : ndarray) :
  preserves dirs_grow (dispatch E dicom_filepath base out_path arr).
Proof.
  apply (dispatch_preserves E dirs_grow (fun _ => True)
           dirs_grow_refl dirs_grow_trans print_dirs_grow
           (fun img p _ => save_dirs_grow E img p)); done.
Qed.



(** ** Multi-frame buffers *)

Section MultiFrame.

Variable E : env.

Lemma for_each_ext {A : Type} (l : list A) (body body' : A -> M unit) (w : world) :
  (forall x w0, x ∈ l -> body x w0 = body' x w0) ->
  for_each l body w = for_each l body' w.
Proof.
  revert w. induction l as [|x l IH]; intros w Hb; simpl; [done|].
  unfold bind. rewrite Hb by apply list_elem_of_here.
  destruct (body' x w) as [[e|[]] w1]; [done|].
  apply IH. intros y w0 Hy. apply Hb. by apply list_elem_of_further.
Qed.

Lemma encode_frame_ok (mode : option string) (arr : ndarray) (i : nat) :
  (0 < ndim arr)%nat -> (i < num_frames arr)%nat ->
  frames_normalizable arr -> encoder_accepts E mode arr ->
  exists img, encode_frame E mode arr i = inr img.
Proof.
  intros Hnd Hi Hn Hacc. unfold encode_frame.
  destruct (getitem_in_range arr i Hnd Hi) as [f0 Hf0]. rewrite Hf0.
  destruct (frames_normalize arr f0 i Hn Hf0) as [f Hf]. rewrite Hf.
  by eapply Hacc.
Qed.

(** An image for each index: the one that [encode_frame] gives, when it
    gives one. *)
Lemma encode_frame_total (mode : option string) (arr : ndarray) :
  (0 < ndim arr)%nat -> frames_normalizable arr -> encoder_accepts E mode arr ->
  forall i, i ∈ seq 0 (num_frames arr) ->
    encode_frame E mode arr i
    = inr (from_result (mk_image "" arr) (encode_frame E mode arr i)).
Proof.
  intros Hnd Hn Hacc i Hi. apply elem_of_seq in Hi.
  destruct (encode_frame_ok mode arr i) as [img Himg]; try done; [lia|].
  by rewrite Himg.
Qed.

Lemma rank3_loop_eq (out_path : string) (arr : ndarray) (n : nat) (w : world) :
  ndim arr = 3%nat ->
  for_range n (frame_step_rank3 E out_path arr) w
  = for_range n (save_step E (encode_frame E (Some "L"%string) arr) out_path) w.
Proof. intros Hr. apply for_each_ext. intros i w0 _. by apply frame_step_rank3_eq. Qed.

Lemma rank4_loop_eq (out_path : string) (arr : ndarray) (n : nat) (w : world) :
  for_range n (frame_step_rank4 E out_path arr) w
  = for_range n (save_step E (encode_frame E None arr) out_path) w.
Proof. apply for_each_ext. intros i w0 _. apply frame_step_rank4_eq. Qed.

(** The loop, when nothing fails. *)
Lemma save_loop_ok (mode : option string) (out_path : string) (arr : ndarray) (w : world) :
  (0 < ndim arr)%nat -> writable E -> frames_normalizable arr -> encoder_accepts E mode arr ->
  for_range (num_frames arr) (save_step E (encode_frame E mode arr) out_path) w
  = (inr tt,
     mk_world (stdout w) (dirs w)
       (put_frames out_path
          (fun i => from_result (mk_image "" arr) (encode_frame E mode arr i))
          (seq 0 (num_frames arr)) (files w))).
Proof.
  intros Hnd Hwr Hn Hacc. apply for_each_saves; [done|].
  by apply encode_frame_total.
Qed.

Lemma dispatch_rank3_ok (dicom_filepath base out_path : string) (arr : ndarray) (w : world) :
  ndim arr = 3%nat -> writable E -> frames_normalizable arr ->
  encoder_accepts E (Some "L"%string) arr ->
  dispatch E dicom_filepath base out_path arr w
  = (inr tt,
     mk_world
       (stdout w ++ [MsgFoundFrames (num_frames arr);
                     MsgExtractionComplete (basename dicom_filepath)
                       (join base (specific_output_folder_name dicom_filepath))])
       (dirs w)
       (put_frames out_path
          (fun i => from_result (mk_image "" arr) (encode_frame E (Some "L"%string) arr i))
          (seq 0 (num_frames arr)) (files w))).
Proof.
  intros Hr Hwr Hn Hacc. unfold dispatch. rewrite Hr. simpl.
  erewrite bind_inr by apply print_run.
  erewrite bind_inr; last first.
  { rewrite rank3_loop_eq by done. apply save_loop_ok; try done. lia. }
  rewrite print_run. unfold printed. simpl. by rewrite <- app_assoc.
Qed.

Lemma dispatch_rank4_ok (dicom_filepath base out_path : string) (arr : ndarray) (w : world) :
  ndim arr = 4%nat -> writable E -> frames_normalizable arr ->
  encoder_accepts E None arr ->
  dispatch E dicom_filepath base out_path arr w
  = (inr tt,
     mk_world
       (stdout w ++ [MsgFoundFramesMultiChannel (num_frames arr);
                     MsgExtractionComplete (basename dicom_filepath)
                       (join base (specific_output_folder_name dicom_filepath))])
       (dirs w)
       (put_frames out_path
          (fun i => from_result (mk_image "" arr) (encode_frame E None arr i))
          (seq 0 (num_frames arr)) (files w))).
Proof.
  intros Hr Hwr Hn Hacc. unfold dispatch. rewrite Hr. simpl.
  erewrite bind_inr by apply print_run.
  erewrite bind_inr; last first.
  { rewrite rank4_loop_eq. apply save_loop_ok; try done. lia. }
  rewrite print_run. unfold printed. simpl. by rewrite <- app_assoc.
Qed.

(** Only the frame files can differ after the extraction of a multi-frame
    buffer. *)
Lemma multi_frame_files_within (dicom_filepath base : string) (ds : dataset) (arr : ndarray) :
  dcmread E dicom_filepath = inr ds -> pixel_array ds = inr arr ->
  ndim arr = 3%nat \/ ndim arr = 4%nat ->
  preserves
    (files_differ_within
       (frame_paths (specific_output_path E dicom_filepath base) (num_frames arr)))
    (extract_frames_from_dicom E dicom_filepath base).
Proof.
  intros Hds Harr Hr.
  apply (extract_preserves E
           (files_differ_within
              (frame_paths (specific_output_path E dicom_filepath base) (num_frames arr)))
           (frame_paths (specific_output_path E dicom_filepath base) (num_frames arr)));
    eauto using print_files_within, save_files_within, makedirs_files_within with world.
  intros ds' arr' Hds' Harr'. assert (ds' = ds) by congruence. subst ds'.
  assert (arr' = arr) by congruence. subst arr'. split.
  - intros H2. destruct Hr as [H|H]; rewrite H2 in H; discriminate.
  - intros _ i Hi. by exists i.
Qed.

End MultiFrame.

Section MultiFrameRuns.

Variable E : env.

Lemma extract_rank3_ok (dicom_filepath base : string) (w : world) (ds : dataset) (arr : ndarray) :
  dcmread E dicom_filepath = inr ds -> tag_in PixelData ds = true ->
  pixel_array ds = inr arr -> ndim arr = 3%nat ->
  can_mkdir E -> writable E -> frames_normalizable arr ->
  encoder_accepts E (Some "L"%string) arr ->
  extract_frames_from_dicom E dicom_filepath base w
  = (inr tt,
     mk_world
       (stdout w ++ [MsgProcessing (basename dicom_filepath);
                     MsgFoundFrames (num_frames arr);
                     MsgExtractionComplete (basename dicom_filepath)
                       (join base (specific_output_folder_name dicom_filepath))])
       (dirs (ensure_folder (specific_output_path E dicom_filepath base)
                (printed (MsgProcessing (basename dicom_filepath)) w)))
       (put_frames (specific_output_path E dicom_filepath base)
          (fun i => from_result (mk_image "" arr) (encode_frame E (Some "L"%string) arr i))
          (seq 0 (num_frames arr)) (files w))).
Proof.
  intros Hds Htag Harr Hr Hmk Hwr Hn Hacc. apply extract_ok.
  rewrite (try_body_dispatch E _ _ _ ds arr) by done.
  rewrite dispatch_rank3_ok by done.
  rewrite ensure_folder_files, ensure_folder_stdout. simpl.
  by rewrite <- app_assoc.
Qed.

Lemma extract_rank4_ok (dicom_filepath base : string) (w : world) (ds : dataset) (arr : ndarray) :
  dcmread E dicom_filepath = inr ds -> tag_in PixelData ds = true ->
  pixel_array ds = inr arr -> ndim arr = 4%nat ->
  can_mkdir E -> writable E -> frames_normalizable arr ->
  encoder_accepts E None arr ->
  extract_frames_from_dicom E dicom_filepath base w
  = (inr tt,
     mk_world
       (stdout w ++ [MsgProcessing (basename dicom_filepath);
                     MsgFoundFramesMultiChannel (num_frames arr);
                     MsgExtractionComplete (basename dicom_filepath)
                       (join base (specific_output_folder_name dicom_filepath))])
       (dirs (ensure_folder (specific_output_path E dicom_filepath base)
                (printed (MsgProcessing (basename dicom_filepath)) w)))
       (put_frames (specific_output_path E dicom_filepath base)
          (fun i => from_result (mk_image "" arr) (encode_frame E None arr i))
          (seq 0 (num_frames arr)) (files w))).
Proof.
  intros Hds Htag Harr Hr Hmk Hwr Hn Hacc. apply extract_ok.
  rewrite (try_body_dispatch E _ _ _ ds arr) by done.
  rewrite dispatch_rank4_ok by done.
  rewrite ensure_folder_files, ensure_folder_stdout. simpl.
  by rewrite <- app_assoc.
Qed.

(** Every frame has its file after [put_frames]. *)
Lemma put_frames_all (mode : option string) (out_path : string) (arr : ndarray)
    (fs : gmap string image) (i : nat) :
  (0 < ndim arr)%nat -> frames_normalizable arr -> encoder_accepts E mode arr ->
  (i < num_frames arr)%nat ->
  exists img,
    encode_frame E mode arr i = inr img /\
    put_frames out_path
      (fun i => from_result (mk_image "" arr) (encode_frame E mode arr i))
      (seq 0 (num_frames arr)) fs !! join out_path (frame_name i) = Some img.
Proof.
  intros Hnd Hn Hacc Hi.
  destruct (encode_frame_ok E mode arr i) as [img Himg]; try done.
  exists img. split; [done|].
  rewrite put_frames_lookup by (apply elem_of_seq; lia). by rewrite Himg.
Qed.

(** One turn of the rank-3 loop on a frame that is neither 2-D nor 3-D
    with 3 or 4 channels: the frame is reported, nothing is written, and the
    loop goes on with the next index. *)
Lemma frame_step_rank3_skip (out_path : string) (arr f0 f : ndarray) (i : nat)
    (l : list nat) (w : world) :
  getitem arr i = inr f0 -> normalize f0 = inr f ->
  ndim f <> 2%nat ->
  ((ndim f =? 3)%nat && last_axis_in_3_4 f)%bool = false ->
  for_each (i :: l) (frame_step_rank3 E out_path arr) w
  = for_each l (frame_step_rank3 E out_path arr) (printed (WarnFrameDimensions (shape f) i) w).
Proof.
  intros Hg Hn H2 H3.
  assert (Hs : frame_step_rank3 E out_path arr i w
               = (inr tt, printed (WarnFrameDimensions (shape f) i) w)).
  { unfold frame_step_rank3.
    rewrite (bind_lift_inr _ _ _ f0 Hg), (bind_lift_inr _ _ _ f Hn).
    apply Nat.eqb_neq in H2. rewrite H2, H3. apply print_run. }
  simpl. unfold bind at 1. by rewrite Hs.
Qed.

(** One turn of the rank-4 loop never reports a frame; when it ends
    normally it has written the file of its frame. *)
Lemma frame_step_rank4_no_skip (out_path : string) (arr : ndarray) (i : nat)
    (w w1 : world) (r : result unit) :
  frame_step_rank4 E out_path arr i w = (r, w1) ->
  stdout w1 = stdout w /\
  (r = inr tt ->
   exists img, encode_frame E None arr i = inr img /\
               w1 = written (join out_path (frame_name i)) img w).
Proof.
  rewrite frame_step_rank4_eq. intros H. split.
  - by apply save_step_same_stdout in H.
  - intros ->. unfold save_step in H.
    destruct (encode_frame E None arr i) as [e|img]; simpl in H.
    + unfold bind, raise in H. simpl in H. discriminate.
    + exists img. split; [done|]. unfold bind, ret, save in H. simpl in H.
      destruct (save_error E w img _); [discriminate|]. by injection H as <-.
Qed.

End MultiFrameRuns.

(** ** Rank 4 *)

(** C5. When the pixel buffer has rank 4 with N frames, the loop has no way
    to skip a frame: one turn either raises, which ends the extraction of the
    file, or writes the file of its frame, and it reports nothing.  Only the
    files [frame_0000.png] ... of the N frames can differ afterwards; and
    when the folder can be created, the frames normalise, the encoder accepts
    them and the files can be written, the extraction returns normally and
    each of the N frames has its file, under N distinct names. *)
Theorem rank4_exactly_N_frames (E : env) (dicom_filepath base : string) (w : world)
    (ds : dataset) (arr : ndarray) :
  dcmread E dicom_filepath = inr ds ->
  tag_in PixelData ds = true ->
  pixel_array ds = inr arr ->
  ndim arr = 4%nat ->
  (forall out_path i w0 r w1,
     frame_step_rank4 E out_path arr i w0 = (r, w1) ->
     stdout w1 = stdout w0 /\
     (r = inr tt ->
      exists img, encode_frame E None arr i = inr img /\
                  w1 = written (join out_path (frame_name i)) img w0)) /\
  exists w',
    extract_frames_from_dicom E dicom_filepath base w = (inr tt, w') /\
    (forall p, ~ frame_paths (specific_output_path E dicom_filepath base) (num_frames arr) p ->
       files w' !! p = files w !! p) /\
    (forall i j, join (specific_output_path E dicom_filepath base) (frame_name i)
                 = join (specific_output_path E dicom_filepath base) (frame_name j) -> i = j) /\
    (can_mkdir E -> writable E -> frames_normalizable arr -> encoder_accepts E None arr ->
     (forall i, (i < num_frames arr)%nat ->
        exists img,
          encode_frame E None arr i = inr img /\
          files w' !! join (specific_output_path E dicom_filepath base) (frame_name i)
          = Some img) /\
     stdout w'
     = stdout w ++ [MsgProcessing (basename dicom_filepath);
                    MsgFoundFramesMultiChannel (num_frames arr);
                    MsgExtractionComplete (basename dicom_filepath)
                      (join base (specific_output_folder_name dicom_filepath))]).
Proof.
  intros Hds Htag Harr Hr. split.
  { intros out_path i w0 r w1. apply frame_step_rank4_no_skip. }
  destruct (extract_returns E dicom_filepath base w) as [w' Hrun].
  exists w'. split; [done|]. split.
  { intros p Hp. eapply (multi_frame_files_within E _ _ ds arr); eauto. }
  split; [apply frame_path_inj|].
  intros Hmk Hwr Hn Hacc.
  rewrite (extract_rank4_ok E _ _ _ ds arr) in Hrun by done.
  injection Hrun as <-. simpl. split; [|done].
  intros i Hi. apply put_frames_all; try done. lia.
Qed.

Lemma rank4_exactly_N_frames_witness :
  exists w' img0 img1,
    extract_frames_from_dicom Demo.demo_env "/in/colour.dcm" "extracted_images" empty_world
    = (inr tt, w') /\
    files w' !! "/opt/app/extracted_images/colour_extracted/frame_0000.png"%string = Some img0 /\
    files w' !! "/opt/app/extracted_images/colour_extracted/frame_0001.png"%string = Some img1.
Proof.
  destruct (rank4_exactly_N_frames Demo.demo_env "/in/colour.dcm" "extracted_images" empty_world
              (mk_dataset [PixelData] (inr Demo.colour)) Demo.colour)
    as (_ & w' & Hrun & _ & _ & Hok); try reflexivity.
  destruct Hok as [Hall _].
  - intros ? ?. reflexivity.
  - intros ? ? ?. reflexivity.
  - left. reflexivity.
  - intros i f0 f Hg Hn. apply getitem_inv in Hg as (Hs & _).
    apply normalize_shape in Hn as [Hs' _]. rewrite Hs in Hs'.
    unfold Demo.demo_env, Demo.pil_fromarray. simpl. rewrite Hs'. simpl. eauto.
  - destruct (Hall 0%nat) as (img0 & _ & H0); [vm_compute; lia|].
    destruct (Hall 1%nat) as (img1 & _ & H1); [vm_compute; lia|].
    exists w', img0, img1. split; [exact Hrun|]. split; [exact H0|exact H1].
Defined.

(** ** Rank 3 *)

(** C4. When the pixel buffer has rank 3 with N frames, only the files
    [frame_0000.png] ... [frame_{N-1:04d}.png] of the folder of the source
    can differ afterwards, and these names (four digits below 10000) are
    distinct.  A turn of the loop on a frame that is neither two-dimensional
    nor three-dimensional with 3 or 4 channels reports the frame, writes
    nothing, and the loop goes on with the next index.  When the folder can
    be created, the frames normalise, the encoder accepts them and the files
    can be written, every frame has its file. *)
Theorem rank3_frames_written_or_skipped (E : env) (dicom_filepath base : string) (w : world)
    (ds : dataset) (arr : ndarray) :
  dcmread E dicom_filepath = inr ds ->
  tag_in PixelData ds = true ->
  pixel_array ds = inr arr ->
  ndim arr = 3%nat ->
  (forall (buf f0 f : ndarray) out_path i l w0,
     getitem buf i = inr f0 -> normalize f0 = inr f ->
     ndim f <> 2%nat ->
     ((ndim f =? 3)%nat && last_axis_in_3_4 f)%bool = false ->
     for_each (i :: l) (frame_step_rank3 E out_path buf) w0
     = for_each l (frame_step_rank3 E out_path buf)
         (printed (WarnFrameDimensions (shape f) i) w0)) /\
  (forall i, (i < 100 * 100)%nat ->
     String.length (format_04d i) = 4%nat /\
     Nat.of_uint <$> NilEmpty.uint_of_string (format_04d i) = Some i) /\
  exists w',
    extract_frames_from_dicom E dicom_filepath base w = (inr tt, w') /\
    (forall p, ~ frame_paths (specific_output_path E dicom_filepath base) (num_frames arr) p ->
       files w' !! p = files w !! p) /\
    (forall i j, join (specific_output_path E dicom_filepath base) (frame_name i)
                 = join (specific_output_path E dicom_filepath base) (frame_name j) -> i = j) /\
    (can_mkdir E -> writable E -> frames_normalizable arr ->
     encoder_accepts E (Some "L"%string) arr ->
     forall i, (i < num_frames arr)%nat ->
       exists img,
         encode_frame E (Some "L"%string) arr i = inr img /\
         files w' !! join (specific_output_path E dicom_filepath base) (frame_name i)
         = Some img).
Proof.
  intros Hds Htag Harr Hr. split.
  { intros buf f0 f out_path i l w0. apply frame_step_rank3_skip. }
  split.
  { intros i Hi. split; [by apply format_04d_length | apply format_04d_read]. }
  destruct (extract_returns E dicom_filepath base w) as [w' Hrun].
  exists w'. split; [done|]. split.
  { intros p Hp. eapply (multi_frame_files_within E _ _ ds arr); eauto. }
  split; [apply frame_path_inj|].
  intros Hmk Hwr Hn Hacc.
  rewrite (extract_rank3_ok E _ _ _ ds arr) in Hrun by done.
  injection Hrun as <-. simpl.
  intros i Hi. apply put_frames_all; try done. lia.
Qed.

Lemma rank3_frames_written_or_skipped_witness :
  (exists w' img0 img1,
     extract_frames_from_dicom Demo.demo_env "/in/cine.dcm" "extracted_images" empty_world
     = (inr tt, w') /\
     files w' !! "/opt/app/extracted_images/cine_extracted/frame_0000.png"%string = Some img0 /\
     files w' !! "/opt/app/extracted_images/cine_extracted/frame_0001.png"%string = Some img1) /\
  for_each [0%nat] (frame_step_rank3 Demo.demo_env "/out" Demo.five_channels) empty_world
  = (inr tt, mk_world [WarnFrameDimensions [1; 1; 5]%nat 0] ∅ ∅).
Proof.
  destruct (rank3_frames_written_or_skipped Demo.demo_env "/in/cine.dcm" "extracted_images"
              empty_world (mk_dataset [PixelData] (inr Demo.cine)) Demo.cine)
    as (Hskip & _ & w' & Hrun & _ & _ & Hok); try reflexivity.
  split.
  - assert (Hall := Hok (fun _ _ => eq_refl) (fun _ _ _ => eq_refl)).
    assert (Hn : frames_normalizable Demo.cine).
    { right. split; [reflexivity|]. vm_compute. lia. }
    assert (Hacc : encoder_accepts Demo.demo_env (Some "L"%string) Demo.cine).
    { intros i f0 f _ _. eexists. reflexivity. }
    destruct (Hall Hn Hacc 0%nat) as (img0 & _ & H0); [vm_compute; lia|].
    destruct (Hall Hn Hacc 1%nat) as (img1 & _ & H1); [vm_compute; lia|].
    exists w', img0, img1. split; [exact Hrun|]. split; [exact H0|exact H1].
  - rewrite (Hskip Demo.five_channels (Demo.u8 [1;1;5]%nat [1;2;3;4;5])
               (Demo.u8 [1;1;5]%nat [1;2;3;4;5])); try reflexivity.
    vm_compute. lia.
Defined.

(** C9. In the rank-3 branch every frame [pixel_array[i]] has rank 2, before
    and after normalisation.  So a turn of the loop is always the grayscale
    turn (slice, normalise, encode with mode ['L'], write): the colour branch
    and the skip branch are never taken, the loop never reports a frame, and
    when nothing fails all the N frames are encoded in mode ['L'] and
    written. *)
Theorem rank3_frames_always_grayscale (E : env) (arr : ndarray) :
  ndim arr = 3%nat ->
  (forall i, (i < num_frames arr)%nat -> exists f0, getitem arr i = inr f0) /\
  (forall i f0 f, getitem arr i = inr f0 -> normalize f0 = inr f ->
     ndim f0 = 2%nat /\ ndim f = 2%nat) /\
  (forall out_path i w,
     frame_step_rank3 E out_path arr i w
     = (let! frame := lift (getitem arr i) in
        let! frame := lift (normalize frame) in
        let! image := lift (fromarray E frame (Some "L"%string)) in
        save E image (join out_path (frame_name i)))%py w) /\
  (forall out_path w r w',
     for_range (num_frames arr) (frame_step_rank3 E out_path arr) w = (r, w') ->
     stdout w' = stdout w) /\
  (writable E -> frames_normalizable arr -> encoder_accepts E (Some "L"%string) arr ->
   forall out_path w,
   exists w',
     for_range (num_frames arr) (frame_step_rank3 E out_path arr) w = (inr tt, w') /\
     forall i, (i < num_frames arr)%nat ->
       exists img,
         encode_frame E (Some "L"%string) arr i = inr img /\
         files w' !! join out_path (frame_name i) = Some img).
Proof.
  intros Hr. split.
  { intros i Hi. apply getitem_in_range; [lia|done]. }
  split.
  { intros i f0 f. by apply rank3_slice_rank2. }
  split.
  { intros out_path i w. unfold frame_step_rank3.
    destruct (getitem arr i) as [e|f0] eqn:Hg; [reflexivity|].
    rewrite !(bind_lift_inr _ _ _ f0 eq_refl).
    destruct (normalize f0) as [e|f] eqn:Hn; [reflexivity|].
    rewrite !(bind_lift_inr _ _ _ f eq_refl).
    destruct (rank3_slice_rank2 arr f0 f i Hr Hg Hn) as [_ Hf].
    by rewrite Hf. }
  split.
  { intros out_path w r w'. rewrite rank3_loop_eq by done.
    apply save_loop_same_stdout. }
  intros Hwr Hn Hacc out_path w. eexists. split.
  { rewrite rank3_loop_eq by done. apply save_loop_ok; try done. lia. }
  simpl. intros i Hi. apply put_frames_all; try done. lia.
Qed.

Lemma rank3_frames_always_grayscale_witness :
  ndim Demo.cine = 3%nat /\
  exists w' img,
    for_range 2 (frame_step_rank3 Demo.demo_env "/out" Demo.cine) empty_world = (inr tt, w') /\
    stdout w' = [] /\
    files w' !! "/out/frame_0001.png"%string = Some img /\
    im_mode img = "L"%string.
Proof.
  split; [reflexivity|].
  destruct (rank3_frames_always_grayscale Demo.demo_env Demo.cine eq_refl)
    as (_ & _ & _ & Hquiet & Hok).
  assert (Hn : frames_normalizable Demo.cine).
  { right. split; [reflexivity|]. vm_compute. lia. }
  assert (Hacc : encoder_accepts Demo.demo_env (Some "L"%string) Demo.cine).
  { intros i f0 f _ _. eexists. reflexivity. }
  destruct (Hok (fun _ _ _ => eq_refl) Hn Hacc "/out"%string empty_world) as (w' & Hrun & Hall).
  destruct (Hall 1%nat) as (img & Himg & Hfile); [vm_compute; lia|].
  exists w', img. split; [exact Hrun|]. split; [exact (Hquiet _ _ _ _ Hrun)|].
  split; [exact Hfile|]. vm_compute in Himg. injection Himg as <-. reflexivity.
Defined.

(** ** Errors *)

Section Errors.

Variable E : env.

Lemma stdout_grows_refl w : stdout_grows w w.
Proof. unfold stdout_grows. reflexivity. Qed.

Lemma stdout_grows_trans w1 w2 w3 :
  stdout_grows w1 w2 -> stdout_grows w2 w3 -> stdout_grows w1 w3.
Proof. unfold stdout_grows. intros H1 H2. by transitivity (stdout w2). Qed.

Lemma print_stdout_grows d : preserves stdout_grows (print d).
Proof. prim_inv. unfold stdout_grows. simpl. by apply prefix_app_r. Qed.

Lemma save_stdout_grows img p : preserves stdout_grows (save E img p).
Proof. prim_inv; unfold stdout_grows; done. Qed.

Lemma makedirs_stdout_grows p : preserves stdout_grows (makedirs E p).
Proof. prim_inv; unfold stdout_grows; done. Qed.

Lemma extract_stdout_grows (dicom_filepath base : string) :
  preserves stdout_grows (extract_frames_from_dicom E dicom_filepath base).
Proof.
  apply (extract_preserves E stdout_grows (fun _ => True)
           stdout_grows_refl stdout_grows_trans print_stdout_grows
           (fun img p _ => save_stdout_grows img p) makedirs_stdout_grows).
  intros ds arr _ _. split; done.
Qed.

(** The extraction announces the file it processes. *)
Lemma extract_announces (dicom_filepath base : string) (w w' : world) (r : result unit) :
  extract_frames_from_dicom E dicom_filepath base w = (r, w') ->
  MsgProcessing (basename dicom_filepath) ∈ stdout w'.
Proof.
  rewrite extract_unfold. intros H.
  assert (Hg : stdout_grows (printed (MsgProcessing (basename dicom_filepath)) w) w').
  { revert H. apply preserves_try_except.
    - apply stdout_grows_trans.
    - apply (try_body_preserves E stdout_grows (fun _ => True)
               stdout_grows_refl stdout_grows_trans print_stdout_grows
               (fun img p _ => save_stdout_grows img p) makedirs_stdout_grows).
      intros ds arr _ _. split; done.
    - intros e. apply handler_preserves, print_stdout_grows. }
  destruct Hg as [k Hk]. rewrite Hk. simpl.
  apply elem_of_app. left. apply elem_of_app. right. apply list_elem_of_here.
Qed.

Lemma process_filename_returns (folder filename : string) (w : world) :
  exists w', process_filename E folder filename w = (inr tt, w').
Proof.
  unfold process_filename. destruct (endswith _ _).
  - apply extract_returns.
  - by eexists.
Qed.

Lemma process_filename_stdout_grows (folder filename : string) :
  preserves stdout_grows (process_filename E folder filename).
Proof.
  unfold process_filename. destruct (endswith _ _).
  - apply extract_stdout_grows.
  - apply preserves_ret, stdout_grows_refl.
Qed.

(** The batch loop reaches every file, whatever happened to the files
    before it. *)
Lemma batch_loop_continues (folder : string) (filenames : list string) (w : world) :
  exists w',
    for_each filenames (process_filename E folder) w = (inr tt, w') /\
    forall f, f ∈ filenames -> endswith (lower f) ".dcm" = true ->
      MsgProcessing (basename (join folder f)) ∈ stdout w'.
Proof.
  revert w. induction filenames as [|x l IH]; intros w; simpl.
  - eexists. split; [done|]. intros f Hf. inversion Hf.
  - destruct (process_filename_returns folder x w) as [w1 Hx].
    destruct (IH w1) as (w' & Hl & Hall).
    exists w'. split; [by erewrite bind_inr by exact Hx|].
    intros f Hf Hdcm. apply elem_of_cons in Hf as [->|Hf]; [|by apply Hall].
    assert (Hin : MsgProcessing (basename (join folder x)) ∈ stdout w1).
    { unfold process_filename in Hx. rewrite Hdcm in Hx. by eapply extract_announces. }
    assert (Hg : stdout_grows w1 w').
    { revert Hl. apply preserves_for_each.
      - apply stdout_grows_refl.
      - apply stdout_grows_trans.
      - intros y _. apply process_filename_stdout_grows. }
    destruct Hg as [k ->]. apply elem_of_app. by left.
Qed.

Lemma main_returns (folder : string) (w : world) :
  exists w', main E folder w = (inr tt, w').
Proof.
  unfold main. destruct (negb (isdir E folder)); [by eexists|].
  erewrite bind_inr by apply print_run.
  set (w0 := printed (MsgScanning folder) w).
  assert (Hl : exists l w1,
             try_except (let! l := lift (listdir E folder) in ret (sorted l))%py
               (fun e => (print (ErrListing folder e) >> ret [])%py) w0 = (inr l, w1)).
  { unfold try_except. destruct (listdir E folder) as [e|l]; simpl.
    - unfold bind, raise. simpl. by eexists _, _.
    - unfold bind, ret. simpl. by eexists _, _. }
  destruct Hl as (l & w1 & Hl). erewrite bind_inr by exact Hl.
  destruct (batch_loop_continues folder l w1) as (w2 & Hloop & _).
  erewrite bind_inr by exact Hloop. by eexists.
Qed.

(** An exception in a single-frame file leaves the files as they were. *)
Lemma rank2_error_no_file (dicom_filepath base : string) (w0 w1 : world)
    (ds : dataset) (arr : ndarray) (e : exn) :
  dcmread E dicom_filepath = inr ds -> pixel_array ds = inr arr -> ndim arr = 2%nat ->
  try_body E dicom_filepath base w0 = (inl e, w1) ->
  files w1 = files w0.
Proof.
  intros Hds Harr Hnd H. unfold try_body in H.
  rewrite (bind_lift_inr _ _ _ ds Hds) in H.
  destruct (tag_in PixelData ds); simpl in H.
  - rewrite (bind_lift_inr _ _ _ arr Harr) in H.
    unfold dispatch in H. rewrite Hnd in H. simpl in H.
    unfold bind, path_exists, makedirs, print, lift, save, ret, raise in H.
    repeat case_match; simplify_eq; done.
  - unfold bind, print, ret in H. repeat case_match; simplify_eq.
Qed.

End Errors.



(** * Further properties *)

(** ** Normalisation *)

Section NormalisationMore.

(** The rescaling branch, with the samples written as [rescaled]. *)
Lemma normalize_rescaled (frame : ndarray) (lo hi : Q) :
  dtype_of frame <> uint8 ->
  reduce min_q (data frame) = Some lo ->
  reduce max_q (data frame) = Some hi ->
  normalize frame =
    inr (mk_ndarray uint8 (shape frame)
           (if negb (Qeq_bool hi lo)
            then (fun x => inject_Z (rescaled lo hi x)) <$> data frame
            else replicate (length (data frame)) 0%Q)).
Proof.
  intros Hdt Hlo Hhi. rewrite (normalize_unfold frame lo hi) by done.
  destruct (Qeq_bool hi lo) eqn:Hb; simpl; [done|].
  do 2 f_equal. apply list_fmap_ext. intros k x Hk.
  assert (Hx : x ∈ data frame) by (apply list_elem_of_lookup; eauto).
  destruct (reduce_min_spec _ _ Hlo) as [_ Hlo_le].
  destruct (reduce_max_spec _ _ Hhi) as [Hhi_in Hhi_le].
  assert (Hlt : (lo < hi)%Q).
  { specialize (Hlo_le _ Hhi_in). apply Qle_lteq in Hlo_le as [?|Heq]; [done|].
    symmetry in Heq. apply Qeq_bool_iff in Heq. congruence. }
  destruct (rescale_bounds x lo hi) as [H0 H255]; auto.
  destruct (to_uint8_floor _ H0 H255) as [-> _]. done.
Qed.

Lemma min_q_affine (a b x y : Q) :
  (0 < a)%Q -> min_q (a * x + b) (a * y + b) = (a * min_q x y + b)%Q.
Proof.
  intros Ha. unfold min_q.
  assert (H : Qle_bool (a * x + b) (a * y + b) = Qle_bool x y).
  { apply eq_true_iff_eq. rewrite !Qle_bool_iff. split; intros H; nra. }
  rewrite H. by destruct (Qle_bool x y).
Qed.

Lemma max_q_affine (a b x y : Q) :
  (0 < a)%Q -> max_q (a * x + b) (a * y + b) = (a * max_q x y + b)%Q.
Proof.
  intros Ha. unfold max_q.
  assert (H : Qle_bool (a * x + b) (a * y + b) = Qle_bool x y).
  { apply eq_true_iff_eq. rewrite !Qle_bool_iff. split; intros H; nra. }
  rewrite H. by destruct (Qle_bool x y).
Qed.

Lemma reduce_affine (f : Q -> Q -> Q) (a b : Q) (l : list Q) :
  (forall x y, f (a * x + b)%Q (a * y + b)%Q = (a * f x y + b)%Q) ->
  reduce f ((fun x => a * x + b)%Q <$> l) = (fun x => a * x + b)%Q <$> reduce f l.
Proof.
  intros Hf. destruct l as [|x l]; simpl; [done|]. f_equal.
  revert x. induction l as [|y l IH]; intros x; simpl; [done|].
  by rewrite Hf, IH.
Qed.

Lemma rescaled_affine (a b lo hi x : Q) :
  (0 < a)%Q -> (lo < hi)%Q ->
  rescaled (a * lo + b) (a * hi + b) (a * x + b) = rescaled lo hi x.
Proof.
  intros Ha Hlt. unfold rescaled. apply Qfloor_comp. field. split; nra.
Qed.

End NormalisationMore.

(** X1. Normalisation keeps the order of the samples of a frame: a sample
    that is not above another one before is not above it afterwards. *)
Theorem normalize_monotone (frame out : ndarray) (j k : nat) (x y u v : Q) :
  dtype_of frame <> uint8 ->
  normalize frame = inr out ->
  data frame !! j = Some x -> data frame !! k = Some y ->
  data out !! j = Some u -> data out !! k = Some v ->
  (x <= y)%Q -> (u <= v)%Q.
Proof.
  intros Hdt Hn Hx Hy Hu Hv Hxy.
  assert (Hne : data frame <> []) by (intros E; rewrite E in Hx; done).
  destruct (reduce_is_Some min_q _ Hne) as [lo Hlo].
  destruct (reduce_is_Some max_q _ Hne) as [hi Hhi].
  rewrite (normalize_rescaled frame lo hi) in Hn by done. injection Hn as <-.
  simpl in Hu, Hv. destruct (Qeq_bool hi lo) eqn:Hb; simpl in Hu, Hv.
  - apply lookup_replicate in Hu as [-> _]. apply lookup_replicate in Hv as [-> _].
    apply Qle_refl.
  - rewrite list_lookup_fmap, Hx in Hu. rewrite list_lookup_fmap, Hy in Hv.
    simpl in Hu, Hv. injection Hu as <-. injection Hv as <-.
    rewrite <- Zle_Qle. unfold rescaled. apply Qfloor_resp_le.
    destruct (reduce_min_spec _ _ Hlo) as [_ Hlo_le].
    destruct (reduce_max_spec _ _ Hhi) as [Hhi_in _].
    assert (Hlt : (lo < hi)%Q).
    { specialize (Hlo_le _ Hhi_in). apply Qle_lteq in Hlo_le as [?|Heq]; [done|].
      symmetry in Heq. apply Qeq_bool_iff in Heq. congruence. }
    unfold Qdiv. apply Qmult_le_compat_r; [lra|].
    apply Qinv_le_0_compat. lra.
Qed.

Lemma normalize_monotone_witness : (inject_Z 63 <= inject_Z 255)%Q.
Proof.
  apply (normalize_monotone (u16 [2;2]%nat [0; 250; 500; 1000])
           (mk_ndarray uint8 [2;2]%nat (inject_Z <$> [0; 63; 127; 255]))
           1 3 (inject_Z 250) (inject_Z 1000)); try reflexivity; [done|].
  vm_compute. discriminate.
Defined.



(** X3. Normalising twice is normalising once: the result of a
    normalisation is a [uint8] frame, which a second pass leaves alone. *)
Theorem normalize_idempotent (frame out : ndarray) :
  normalize frame = inr out -> normalize out = inr out.
Proof.
  intros H. apply normalize_shape in H as [_ Hdt]. by apply normalize_uint8.
Qed.

Lemma normalize_idempotent_witness :
  normalize (mk_ndarray uint8 [2;2]%nat (inject_Z <$> [0; 63; 127; 255]))
  = inr (mk_ndarray uint8 [2;2]%nat (inject_Z <$> [0; 63; 127; 255])).
Proof.
  apply (normalize_idempotent (u16 [2;2]%nat [0; 250; 500; 1000])).
  vm_compute. reflexivity.
Defined.

(** ** Buffers without samples, and buffers without frames *)

Section EdgeBuffers.

Variable E : env.

Lemma normalize_empty (frame : ndarray) :
  dtype_of frame <> uint8 -> data frame = [] ->
  normalize frame
  = inl (ValueError "zero-size array to reduction operation minimum which has no identity").
Proof.
  intros Hdt Hd. unfold normalize, Np.min. simpl. rewrite Hd. simpl.
  destruct (dtype_eqb (dtype_of frame) uint8) eqn:Hb; [|done].
  by destruct (dtype_of frame).
Qed.

Lemma getitem_empty (arr f0 : ndarray) (i : nat) :
  data arr = [] -> getitem arr i = inr f0 -> data f0 = [] /\ dtype_of f0 = dtype_of arr.
Proof.
  intros Hd. unfold getitem. destruct (shape arr) as [|n sh]; [done|].
  destruct (i <? n)%nat; [|done]. intros [= <-]. simpl. rewrite Hd.
  by rewrite drop_nil, take_nil.
Qed.

(** The first turn of a loop over an array without samples raises. *)
Lemma encode_frame_empty (mode : option string) (arr : ndarray) :
  (0 < ndim arr)%nat -> (0 < num_frames arr)%nat ->
  dtype_of arr <> uint8 -> data arr = [] ->
  encode_frame E mode arr 0
  = inl (ValueError "zero-size array to reduction operation minimum which has no identity").
Proof.
  intros Hnd Hn Hdt Hd. unfold encode_frame.
  destruct (getitem_in_range arr 0 Hnd Hn) as [f0 Hf0]. rewrite Hf0.
  destruct (getitem_empty arr f0 0 Hd Hf0) as [Hd0 Hdt0].
  rewrite normalize_empty; [done| |done]. by rewrite Hdt0.
Qed.

Lemma save_loop_first_raises (enc : nat -> result image) (out_path : string)
    (n : nat) (w : world) (e : exn) :
  (0 < n)%nat -> enc 0%nat = inl e ->
  for_range n (save_step E enc out_path) w = (inl e, w).
Proof.
  intros Hn He. destruct n as [|n]; [lia|].
  unfold for_range. simpl. apply bind_inl.
  unfold save_step. by rewrite (bind_lift_inl _ _ _ e He).
Qed.

End EdgeBuffers.

(** X4. A buffer whose dtype is not [uint8] and which holds no sample (a
    dimension of size zero), of rank 2 or of rank 3 or 4 with at least one
    frame: [np.min] raises on the first frame, the exception is reported by
    the catch-all clause, and no file is written. *)
Theorem empty_buffer_is_reported (E : env) (dicom_filepath base : string) (w : world)
    (ds : dataset) (arr : ndarray) :
  dcmread E dicom_filepath = inr ds ->
  tag_in PixelData ds = true ->
  pixel_array ds = inr arr ->
  dtype_of arr <> uint8 ->
  data arr = [] ->
  ndim arr = 2%nat \/ ((ndim arr = 3%nat \/ ndim arr = 4%nat) /\ (0 < num_frames arr)%nat) ->
  can_mkdir E ->
  exists w',
    extract_frames_from_dicom E dicom_filepath base w = (inr tt, w') /\
    files w' = files w /\
    stdout w'
    = stdout w ++
      [MsgProcessing (basename dicom_filepath);
       (if (ndim arr =? 3)%nat then MsgFoundFrames (num_frames arr)
        else if (ndim arr =? 4)%nat then MsgFoundFramesMultiChannel (num_frames arr)
        else MsgFoundSingleFrame);
       ErrUnexpected (basename dicom_filepath)
         (ValueError "zero-size array to reduction operation minimum which has no identity")].
Proof.
  intros Hds Htag Harr Hdt Hd Hrank Hmk.
  set (e := ValueError "zero-size array to reduction operation minimum which has no identity").
  set (w0 := ensure_folder (specific_output_path E dicom_filepath base)
               (printed (MsgProcessing (basename dicom_filepath)) w)).
  assert (Hbody : exists d,
            d = (if (ndim arr =? 3)%nat then MsgFoundFrames (num_frames arr)
                 else if (ndim arr =? 4)%nat then MsgFoundFramesMultiChannel (num_frames arr)
                 else MsgFoundSingleFrame) /\
            try_body E dicom_filepath base (printed (MsgProcessing (basename dicom_filepath)) w)
            = (inl e, printed d w0)).
  { eexists. split; [reflexivity|].
    rewrite (try_body_dispatch E _ _ _ ds arr) by done. fold w0. unfold dispatch.
    destruct Hrank as [H2|[[H3|H4] Hn]].
    - rewrite H2. simpl. erewrite bind_inr by apply print_run.
      apply bind_lift_inl. by apply normalize_empty.
    - rewrite H3. simpl. erewrite bind_inr by apply print_run.
      apply bind_inl. rewrite rank3_loop_eq by done.
      apply save_loop_first_raises; [done|]. apply encode_frame_empty; try done. lia.
    - rewrite H4. simpl. erewrite bind_inr by apply print_run.
      apply bind_inl. rewrite rank4_loop_eq.
      apply save_loop_first_raises; [done|]. apply encode_frame_empty; try done. lia. }
  destruct Hbody as (d & -> & Hbody).
  eexists. split; [by apply extract_caught|]. simpl.
  unfold w0. rewrite ensure_folder_files, ensure_folder_stdout. simpl.
  split; [done|]. by rewrite <- !app_assoc.
Qed.

Lemma empty_buffer_is_reported_witness :
  exists w',
    extract_frames_from_dicom Demo.edge_env "/in/empty.dcm" "extracted_images" empty_world
    = (inr tt, w') /\
    files w' = ∅ /\
    stdout w'
    = [MsgProcessing "empty.dcm"; MsgFoundFrames 2;
       ErrUnexpected "empty.dcm"
         (ValueError "zero-size array to reduction operation minimum which has no identity")].
Proof.
  apply (empty_buffer_is_reported Demo.edge_env "/in/empty.dcm" "extracted_images" empty_world
           (mk_dataset [PixelData] (inr Demo.empty_frames)) Demo.empty_frames);
    try reflexivity.
  - done.
  - right. split; [by left|]. vm_compute. lia.
  - intros ? ?. reflexivity.
Defined.

(** X5. A buffer of rank 3 or 4 whose leading axis has size zero: the loop
    does not run, the extraction reports zero frames and its completion, and
    no file is written. *)
Theorem zero_frames_no_file (E : env) (dicom_filepath base : string) (w : world)
    (ds : dataset) (arr : ndarray) :
  dcmread E dicom_filepath = inr ds ->
  tag_in PixelData ds = true ->
  pixel_array ds = inr arr ->
  ndim arr = 3%nat \/ ndim arr = 4%nat ->
  num_frames arr = 0%nat ->
  can_mkdir E ->
  exists w',
    extract_frames_from_dicom E dicom_filepath base w = (inr tt, w') /\
    files w' = files w /\
    stdout w'
    = stdout w ++
      [MsgProcessing (basename dicom_filepath);
       (if (ndim arr =? 3)%nat then MsgFoundFrames 0 else MsgFoundFramesMultiChannel 0);
       MsgExtractionComplete (basename dicom_filepath)
         (join base (specific_output_folder_name dicom_filepath))].
Proof.
  intros Hds Htag Harr Hrank Hn Hmk.
  destruct Hrank as [H|H]; rewrite H; simpl.
  all: eexists; split;
    [ apply extract_ok; rewrite (try_body_dispatch E _ _ _ ds arr) by done;
      unfold dispatch; rewrite Hn, H; simpl;
      (erewrite bind_inr by apply print_run);
      unfold for_range; simpl; unfold bind at 1; simpl; apply print_run
    | simpl; rewrite ensure_folder_files, ensure_folder_stdout; simpl;
      split; [done|]; by rewrite <- !app_assoc ].
Qed.

Lemma zero_frames_no_file_witness :
  exists w',
    extract_frames_from_dicom Demo.edge_env "/in/noframes.dcm" "extracted_images" empty_world
    = (inr tt, w') /\
    files w' = ∅ /\
    stdout w'
    = [MsgProcessing "noframes.dcm"; MsgFoundFrames 0;
       MsgExtractionComplete "noframes.dcm" "extracted_images/noframes_extracted"].
Proof.
  apply (zero_frames_no_file Demo.edge_env "/in/noframes.dcm" "extracted_images" empty_world
           (mk_dataset [PixelData] (inr Demo.no_frames)) Demo.no_frames);
    try reflexivity.
  - by left.
  - intros ? ?. reflexivity.
Defined.

(** ** The folder of the source, once more *)

Section FolderMore.

Variable E : env.

Lemma ensure_folder_present (p : string) (w : world) :
  p ∈ dirs w \/ is_Some (files w !! p) -> ensure_folder p w = w.
Proof.
  intros H. unfold ensure_folder.
  destruct (bool_decide (p ∈ dirs w)) eqn:Hd; simpl; [done|].
  destruct (bool_decide (is_Some (files w !! p))) eqn:Hf; [done|].
  apply bool_decide_eq_false in Hd, Hf. tauto.
Qed.

Lemma ensure_folder_twice (p : string) (w : world) (d : diagnostic) :
  dirs (ensure_folder p (printed d (mk_world (stdout w) (dirs (ensure_folder p w)) (files w))))
  = dirs (ensure_folder p w).
Proof.
  unfold ensure_folder at 1. simpl.
  destruct (bool_decide (p ∈ dirs (ensure_folder p w))) eqn:Hd; simpl; [done|].
  destruct (bool_decide (is_Some (files w !! p))) eqn:Hf; simpl; [done|].
  apply bool_decide_eq_false in Hd, Hf. exfalso. apply Hd.
  apply ensure_folder_dirs. destruct (files w !! p) eqn:Hp; [|done].
  exfalso. apply Hf. eauto.
Qed.

End FolderMore.

(** X6. When something already has the path of the folder of the source,
    [os.makedirs] is not called: the dispatch on the rank starts in the very
    world the body started in, whatever [os.makedirs] would have done. *)
Theorem existing_folder_is_reused (E : env) (dicom_filepath base : string) (w : world)
    (ds : dataset) (arr : ndarray) :
  dcmread E dicom_filepath = inr ds ->
  tag_in PixelData ds = true ->
  pixel_array ds = inr arr ->
  specific_output_path E dicom_filepath base ∈ dirs w \/
  is_Some (files w !! specific_output_path E dicom_filepath base) ->
  try_body E dicom_filepath base w
  = dispatch E dicom_filepath base (specific_output_path E dicom_filepath base) arr w.
Proof.
  intros Hds Htag Harr Hex. unfold try_body.
  rewrite (bind_lift_inr _ _ _ ds Hds), Htag. simpl.
  rewrite (bind_lift_inr _ _ _ arr Harr).
  erewrite bind_inr by apply path_exists_run.
  assert (Hb : (bool_decide (specific_output_path E dicom_filepath base ∈ dirs w)
                || bool_decide (is_Some (files w !! specific_output_path E dicom_filepath base)))%bool
               = true).
  { destruct Hex as [H|H].
    - by rewrite (bool_decide_eq_true_2 _ H).
    - rewrite (bool_decide_eq_true_2 _ H). by rewrite orb_true_r. }
  rewrite Hb. done.
Qed.

Lemma existing_folder_is_reused_witness :
  try_body Demo.locked_env "/in/single.dcm" "extracted_images"
    (mk_world [] {[ "/opt/app/extracted_images/single_extracted"%string ]} ∅)
  = dispatch Demo.locked_env "/in/single.dcm" "extracted_images"
      "/opt/app/extracted_images/single_extracted" Demo.single
      (mk_world [] {[ "/opt/app/extracted_images/single_extracted"%string ]} ∅).
Proof.
  apply (existing_folder_is_reused Demo.locked_env "/in/single.dcm" "extracted_images" _
           (mk_dataset [PixelData] (inr Demo.single)) Demo.single); try reflexivity.
  left. simpl. apply elem_of_singleton. reflexivity.
Defined.



(** ** Running the extraction again, and on sources of the same name *)

Section Reruns.

Variable E : env.

Lemma extract_rank2_ok (dicom_filepath base : string) (w : world) (ds : dataset)
    (arr frame : ndarray) (img : image) :
  dcmread E dicom_filepath = inr ds -> tag_in PixelData ds = true ->
  pixel_array ds = inr arr -> ndim arr = 2%nat ->
  can_mkdir E -> writable E ->
  normalize arr = inr frame -> fromarray E frame (Some "L"%string) = inr img ->
  extract_frames_from_dicom E dicom_filepath base w
  = (inr tt,
     mk_world
       (stdout w ++ [MsgProcessing (basename dicom_filepath); MsgFoundSingleFrame;
                     MsgSavedSingleFrame
                       (join3 base (specific_output_folder_name dicom_filepath)
                          "single_frame.png")])
       (dirs (ensure_folder (specific_output_path E dicom_filepath base)
                (printed (MsgProcessing (basename dicom_filepath)) w)))
       (<[join (specific_output_path E dicom_filepath base) "single_frame.png" := img]>
          (files w))).
Proof.
  intros Hds Htag Harr Hnd Hmk Hwr Hframe Himg. apply extract_ok.
  rewrite (try_body_dispatch E _ _ _ ds arr) by done.
  unfold dispatch. rewrite Hnd. simpl.
  erewrite bind_inr by apply print_run.
  rewrite (bind_lift_inr _ _ _ frame Hframe).
  rewrite (bind_lift_inr _ _ _ img Himg).
  erewrite bind_inr by (apply save_run; apply Hwr).
  rewrite print_run. unfold printed, written. simpl.
  rewrite ensure_folder_files, ensure_folder_stdout. simpl.
  by rewrite <- !app_assoc.
Qed.

Lemma put_frames_is_Some (out_path : string) (img : nat -> image) (l : list nat)
    (fs : gmap string image) (p : string) :
  is_Some (fs !! p) -> is_Some (put_frames out_path img l fs !! p).
Proof.
  revert fs. induction l as [|i l IH]; intros fs H; simpl; [done|].
  apply IH. apply lookup_insert_is_Some. destruct (decide (join out_path (frame_name i) = p)); auto.
Qed.

Lemma put_frames_idempotent (out_path : string) (img : nat -> image) (l : list nat)
    (fs : gmap string image) :
  put_frames out_path img l (put_frames out_path img l fs) = put_frames out_path img l fs.
Proof.
  apply map_eq. intros p.
  destruct (decide (p ∈ (fun i => join out_path (frame_name i)) <$> l)) as [Hin|Hnin].
  - apply list_elem_of_fmap in Hin as (i & -> & Hi). by rewrite !put_frames_lookup.
  - apply put_frames_other. intros i Hi ->. apply Hnin.
    apply list_elem_of_fmap. eauto.
Qed.

(** After a run that got as far as the dispatch, the folder of the source
    exists for the next run. *)
Lemma folder_kept (p : string) (w w1 : world) :
  dirs w1 = dirs (ensure_folder p w) ->
  (forall q, is_Some (files w !! q) -> is_Some (files w1 !! q)) ->
  forall d, dirs (ensure_folder p (printed d w1)) = dirs (ensure_folder p w).
Proof.
  intros Hd Hf d. rewrite ensure_folder_present; [done|]. simpl.
  destruct (files w !! p) eqn:Hp.
  - right. apply Hf. rewrite Hp. eauto.
  - left. rewrite Hd. by apply ensure_folder_dirs.
Qed.

End Reruns.

(** X8. Running the extraction a second time on the same source, when
    nothing fails, overwrites the files in place: the files and the
    directories after the second run are those after the first. *)
Theorem rerun_overwrites_in_place (E : env) (dicom_filepath base : string) (w : world)
    (ds : dataset) (arr : ndarray) :
  dcmread E dicom_filepath = inr ds ->
  tag_in PixelData ds = true ->
  pixel_array ds = inr arr ->
  can_mkdir E -> writable E ->
  (ndim arr = 2%nat /\
   exists frame img, normalize arr = inr frame /\ fromarray E frame (Some "L"%string) = inr img) \/
  (ndim arr = 3%nat /\ frames_normalizable arr /\ encoder_accepts E (Some "L"%string) arr) \/
  (ndim arr = 4%nat /\ frames_normalizable arr /\ encoder_accepts E None arr) ->
  exists w1 w2,
    extract_frames_from_dicom E dicom_filepath base w = (inr tt, w1) /\
    extract_frames_from_dicom E dicom_filepath base w1 = (inr tt, w2) /\
    files w2 = files w1 /\ dirs w2 = dirs w1.
Proof.
  intros Hds Htag Harr Hmk Hwr [(H2 & frame & img & Hn & Himg)|[(H3 & Hn & Hacc)|(H4 & Hn & Hacc)]].
  - eexists _, _.
    split; [by apply (extract_rank2_ok E _ _ _ ds arr frame img)|].
    split; [by apply (extract_rank2_ok E _ _ _ ds arr frame img)|]. simpl.
    split; [apply insert_insert_eq|].
    apply (folder_kept _ (printed (MsgProcessing (basename dicom_filepath)) w)); [done|].
    simpl. intros q Hq. apply lookup_insert_is_Some.
    destruct (decide (join (specific_output_path E dicom_filepath base) "single_frame.png" = q)); auto.
  - eexists _, _.
    split; [by apply (extract_rank3_ok E _ _ _ ds arr)|].
    split; [by apply (extract_rank3_ok E _ _ _ ds arr)|]. simpl.
    split; [apply put_frames_idempotent|].
    apply (folder_kept _ (printed (MsgProcessing (basename dicom_filepath)) w)); [done|].
    simpl. intros q. apply put_frames_is_Some.
  - eexists _, _.
    split; [by apply (extract_rank4_ok E _ _ _ ds arr)|].
    split; [by apply (extract_rank4_ok E _ _ _ ds arr)|]. simpl.
    split; [apply put_frames_idempotent|].
    apply (folder_kept _ (printed (MsgProcessing (basename dicom_filepath)) w)); [done|].
    simpl. intros q. apply put_frames_is_Some.
Qed.

Lemma rerun_overwrites_in_place_witness :
  exists w1 w2,
    extract_frames_from_dicom Demo.demo_env "/in/cine.dcm" "extracted_images" empty_world
    = (inr tt, w1) /\
    extract_frames_from_dicom Demo.demo_env "/in/cine.dcm" "extracted_images" w1
    = (inr tt, w2) /\
    files w2 = files w1 /\ dirs w2 = dirs w1.
Proof.
  apply (rerun_overwrites_in_place Demo.demo_env "/in/cine.dcm" "extracted_images" empty_world
           (mk_dataset [PixelData] (inr Demo.cine)) Demo.cine); try reflexivity.
  - intros ? ?. reflexivity.
  - intros ? ? ?. reflexivity.
  - right. left. split; [reflexivity|]. split.
    + right. split; [reflexivity|]. vm_compute. lia.
    + intros i f0 f _ _. eexists. reflexivity.
Defined.

(** X9. Two single-frame sources whose names have the same stem (the base
    name without its extension) share the folder and the file name: after
    extracting the first and then the second, the file holds the image of
    the second, and no other file differs from before. *)
Theorem same_stem_overwrites (E : env) (path1 path2 base : string) (w : world)
    (ds1 ds2 : dataset) (arr1 arr2 frame1 frame2 : ndarray) (img1 img2 : image) :
  splitext_root (basename path1) = splitext_root (basename path2) ->
  dcmread E path1 = inr ds1 -> tag_in PixelData ds1 = true -> pixel_array ds1 = inr arr1 ->
  dcmread E path2 = inr ds2 -> tag_in PixelData ds2 = true -> pixel_array ds2 = inr arr2 ->
  ndim arr1 = 2%nat -> ndim arr2 = 2%nat ->
  normalize arr1 = inr frame1 -> fromarray E frame1 (Some "L"%string) = inr img1 ->
  normalize arr2 = inr frame2 -> fromarray E frame2 (Some "L"%string) = inr img2 ->
  can_mkdir E -> writable E ->
  specific_output_path E path1 base = specific_output_path E path2 base /\
  exists w1 w2,
    extract_frames_from_dicom E path1 base w = (inr tt, w1) /\
    extract_frames_from_dicom E path2 base w1 = (inr tt, w2) /\
    files w2 = <[join (specific_output_path E path2 base) "single_frame.png" := img2]> (files w).
Proof.
  intros Hstem Hds1 Htag1 Harr1 Hds2 Htag2 Harr2 Hn1 Hn2 Hf1 Hi1 Hf2 Hi2 Hmk Hwr.
  assert (Hout : specific_output_path E path1 base = specific_output_path E path2 base).
  { unfold specific_output_path, specific_output_folder_name. by rewrite Hstem. }
  split; [done|]. eexists _, _.
  split; [by apply (extract_rank2_ok E _ _ _ ds1 arr1 frame1 img1)|].
  split; [by apply (extract_rank2_ok E _ _ _ ds2 arr2 frame2 img2)|]. simpl.
  rewrite Hout. apply insert_insert_eq.
Qed.

Lemma same_stem_overwrites_witness :
  exists w1 w2 img2,
    extract_frames_from_dicom Demo.edge_env "/a/scan.dcm" "extracted_images" empty_world
    = (inr tt, w1) /\
    extract_frames_from_dicom Demo.edge_env "/b/scan.dcm" "extracted_images" w1
    = (inr tt, w2) /\
    files w2 = {[ "/opt/app/extracted_images/scan_extracted/single_frame.png"%string := img2 ]} /\
    im_array img2 = Demo.other_single.
Proof.
  destruct (same_stem_overwrites Demo.edge_env "/a/scan.dcm" "/b/scan.dcm" "extracted_images"
              empty_world
              (mk_dataset [PixelData] (inr Demo.single))
              (mk_dataset [PixelData] (inr Demo.other_single))
              Demo.single Demo.other_single Demo.single Demo.other_single
              (mk_image "L" Demo.single) (mk_image "L" Demo.other_single))
    as (_ & w1 & w2 & H1 & H2 & Hfiles); try reflexivity.
  - intros ? ?. reflexivity.
  - intros ? ? ?. reflexivity.
  - exists w1, w2, (mk_image "L" Demo.other_single).
    split; [exact H1|]. split; [exact H2|]. split; [exact Hfiles|reflexivity].
Defined.

(** ** A failure in the middle of the frames *)

Section PartialOutput.

Variable E : env.

(** The loop stops at the first index whose encoding or whose write
    raises; the frames before it have been written. *)
Lemma save_loop_first_failure (enc : nat -> result image) (img : nat -> image)
    (out_path : string) (n s k : nat) (e : exn) (w : world) :
  (s <= k < s + n)%nat ->
  (forall i, (s <= i < k)%nat ->
     enc i = inr (img i) /\
     forall w0, save_error E w0 (img i) (join out_path (frame_name i)) = None) ->
  (enc k = inl e \/
   (enc k = inr (img k) /\
    forall w0, save_error E w0 (img k) (join out_path (frame_name k)) = Some e)) ->
  for_each (seq s n) (save_step E enc out_path) w
  = (inl e, mk_world (stdout w) (dirs w) (put_frames out_path img (seq s (k - s)) (files w))).
Proof.
  revert s w. induction n as [|n IH]; intros s w Hk Hbefore Hat; [lia|].
  simpl. destruct (decide (k = s)) as [->|Hne].
  - rewrite Nat.sub_diag. simpl. destruct w as [so di fi]. simpl.
    apply bind_inl. unfold save_step. destruct Hat as [He|[He Hs]].
    + by rewrite (bind_lift_inl _ _ _ e He).
    + rewrite (bind_lift_inr _ _ _ (img s) He). unfold save. by rewrite Hs.
  - destruct (Hbefore s) as [He Hs]; [lia|].
    erewrite bind_inr; last first.
    { unfold save_step. rewrite (bind_lift_inr _ _ _ (img s) He). apply save_run, Hs. }
    rewrite (IH (S s)); [| lia | intros i Hi; apply Hbefore; lia | done].
    replace (k - s)%nat with (S (k - S s)) by lia. done.
Qed.

End PartialOutput.



(** ** What reaches the encoder *)

Section EncoderInput.

Variable E : env.

(** A rescaled frame holds integers between 0 and 255. *)
Lemma normalize_range (f0 f : ndarray) :
  dtype_of f0 <> uint8 -> normalize f0 = inr f ->
  forall y, y ∈ data f -> exists z, y = inject_Z z /\ 0 <= z <= 255.
Proof.
  intros Hdt Hn y Hy.
  destruct (data f0) as [|x0 l0] eqn:Hd.
  { rewrite normalize_empty in Hn by done. discriminate. }
  assert (Hne : data f0 <> []) by (rewrite Hd; done).
  destruct (reduce_is_Some min_q _ Hne) as [lo Hlo].
  destruct (reduce_is_Some max_q _ Hne) as [hi Hhi].
  rewrite (normalize_rescaled f0 lo hi) in Hn by done. injection Hn as <-. simpl in Hy.
  destruct (Qeq_bool hi lo) eqn:Hb; simpl in Hy.
  - apply elem_of_replicate in Hy as [-> _]. exists 0. split; [done|lia].
  - apply list_elem_of_fmap in Hy as (x & -> & Hx). eexists. split; [done|].
    destruct (reduce_min_spec _ _ Hlo) as [_ Hlo_le].
    destruct (reduce_max_spec _ _ Hhi) as [Hhi_in Hhi_le].
    assert (Hlt : (lo < hi)%Q).
    { specialize (Hlo_le _ Hhi_in). apply Qle_lteq in Hlo_le as [?|Heq]; [done|].
      symmetry in Heq. apply Qeq_bool_iff in Heq. congruence. }
    destruct (rescale_bounds x lo hi) as [H0 H255]; auto.
    by destruct (to_uint8_floor _ H0 H255) as [_ ?].
Qed.

Lemma normalize_length (f0 f : ndarray) :
  normalize f0 = inr f -> length (data f) = length (data f0).
Proof.
  unfold normalize. destruct (dtype_eqb (dtype_of f0) uint8); simpl.
  - by intros [= <-].
  - destruct (Np.min _); [done|]. destruct (Np.max _); [done|].
    intros [= <-]. destruct (negb _); simpl; by rewrite !length_fmap.
Qed.

Lemma save_step_written (mode : option string) (out_path : string) (arr : ndarray)
    (i : nat) (w w' : world) :
  save_step E (encode_frame E mode arr) out_path i w = (inr tt, w') ->
  exists f0 f img,
    getitem arr i = inr f0 /\ normalize f0 = inr f /\ fromarray E f mode = inr img /\
    w' = written (join out_path (frame_name i)) img w.
Proof.
  unfold save_step, encode_frame.
  destruct (getitem arr i) as [e|f0] eqn:Hg; [by rewrite (bind_lift_inl _ _ _ e eq_refl)|].
  destruct (normalize f0) as [e|f] eqn:Hn; [by rewrite (bind_lift_inl _ _ _ e eq_refl)|].
  destruct (fromarray E f mode) as [e|img] eqn:Himg;
    [by rewrite (bind_lift_inl _ _ _ e eq_refl)|].
  rewrite (bind_lift_inr _ _ _ img eq_refl). unfold save.
  destruct (save_error E w img _); [done|]. intros [= <-].
  by exists f0, f, img.
Qed.

End EncoderInput.

(** X11. Every file that a turn of the frame loops writes holds what the
    encoder made of a [uint8] array with the shape of one frame and as many
    samples as the slice, in mode ['L'] in the rank-3 loop and with the mode
    left to the encoder in the rank-4 loop; when the buffer is not [uint8]
    its samples are integers between 0 and 255. *)
Theorem written_frames_are_uint8 (E : env) (out_path : string) (arr : ndarray) (i : nat)
    (w w' : world) (mode : option string) :
  (ndim arr = 3%nat /\ mode = Some "L"%string /\
   frame_step_rank3 E out_path arr i w = (inr tt, w')) \/
  (mode = None /\ frame_step_rank4 E out_path arr i w = (inr tt, w')) ->
  exists f0 f img,
    getitem arr i = inr f0 /\ normalize f0 = inr f /\ fromarray E f mode = inr img /\
    files w' = <[join out_path (frame_name i) := img]> (files w) /\
    dtype_of f = uint8 /\ shape f = tail (shape arr) /\
    length (data f) = length (data f0) /\
    (dtype_of arr <> uint8 ->
     forall y, y ∈ data f -> exists z, y = inject_Z z /\ 0 <= z <= 255).
Proof.
  intros H.
  assert (Hs : save_step E (encode_frame E mode arr) out_path i w = (inr tt, w')).
  { destruct H as [(Hr & -> & H)|[-> H]].
    - by rewrite <- frame_step_rank3_eq.
    - by rewrite <- frame_step_rank4_eq. }
  destruct (save_step_written E mode out_path arr i w w' Hs) as (f0 & f & img & Hg & Hn & Hi & ->).
  exists f0, f, img. do 4 (split; [done|]).
  destruct (normalize_shape _ _ Hn) as [Hsh Hdt].
  destruct (getitem_inv _ _ _ Hg) as (Hsh0 & Hdt0 & _).
  split; [done|]. split; [by rewrite Hsh|].
  split; [by apply normalize_length|].
  intros Hne. apply (normalize_range f0 f); [by rewrite Hdt0|done].
Qed.

Lemma written_frames_are_uint8_witness :
  exists f img,
    normalize (u16 [2;2]%nat [0; 250; 500; 1000]) = inr f /\
    Demo.pil_fromarray f (Some "L"%string) = inr img /\
    dtype_of f = uint8 /\ shape f = [2; 2]%nat.
Proof.
  destruct (written_frames_are_uint8 Demo.demo_env "/out" Demo.cine 1 empty_world
              (written "/out/frame_0001.png"
                 (mk_image "L" (mk_ndarray uint8 [2;2]%nat (inject_Z <$> [0; 63; 127; 255])))
                 empty_world)
              (Some "L"%string))
    as (f0 & f & img & Hg & Hn & Hi & _ & Hdt & Hsh & _).
  - left. split; [reflexivity|]. split; [reflexivity|]. vm_compute. reflexivity.
  - vm_compute in Hg. injection Hg as <-. exists f, img.
    split; [exact Hn|]. split; [exact Hi|]. split; [exact Hdt|exact Hsh].
Defined.

(** ** What is never undone *)

Section NeverRemoves.

Variable E : env.

Lemma nothing_removed_refl w : nothing_removed w w.
Proof. unfold nothing_removed. done. Qed.

Lemma nothing_removed_trans w1 w2 w3 :
  nothing_removed w1 w2 -> nothing_removed w2 w3 -> nothing_removed w1 w3.
Proof.
  intros (H1 & H2 & H3) (K1 & K2 & K3). split; [|split].
  - by transitivity (dirs w2).
  - by transitivity (dom (files w2)).
  - by transitivity (stdout w2).
Qed.

Lemma print_nothing_removed d : preserves nothing_removed (print d).
Proof. prim_inv. unfold nothing_removed. simpl. split; [done|]. split; [done|]. by apply prefix_app_r. Qed.

Lemma save_nothing_removed img p : preserves nothing_removed (save E img p).
Proof.
  prim_inv; unfold nothing_removed; simpl; [done|].
  split; [done|]. split; [|done]. rewrite dom_insert_L. set_solver.
Qed.

Lemma makedirs_nothing_removed p : preserves nothing_removed (makedirs E p).
Proof.
  prim_inv; unfold nothing_removed; simpl; [done|].
  split; [set_solver|done].
Qed.

Lemma extract_nothing_removed (dicom_filepath base : string) :
  preserves nothing_removed (extract_frames_from_dicom E dicom_filepath base).
Proof.
  apply (extract_preserves E nothing_removed (fun _ => True)
           nothing_removed_refl nothing_removed_trans print_nothing_removed
           (fun img p _ => save_nothing_removed img p) makedirs_nothing_removed).
  intros ds arr _ _. split; done.
Qed.

Lemma main_nothing_removed (folder : string) : preserves nothing_removed (main E folder).
Proof.
  unfold main. destruct (negb (isdir E folder)); [apply print_nothing_removed|].
  apply preserves_bind; [apply nothing_removed_trans|apply print_nothing_removed|]. intros _.
  apply preserves_bind; [apply nothing_removed_trans| |].
  { apply preserves_try_except; [apply nothing_removed_trans| |].
    - apply preserves_bind; [apply nothing_removed_trans| |].
      + apply preserves_lift, nothing_removed_refl.
      + intros l. apply preserves_ret, nothing_removed_refl.
    - intros e. apply preserves_bind; [apply nothing_removed_trans|apply print_nothing_removed|].
      intros _. apply preserves_ret, nothing_removed_refl. }
  intros filenames.
  apply preserves_bind; [apply nothing_removed_trans| |intros _; apply print_nothing_removed].
  apply preserves_for_each; [apply nothing_removed_refl|apply nothing_removed_trans|].
  intros f _. unfold process_filename. destruct (endswith _ _).
  - apply extract_nothing_removed.
  - apply preserves_ret, nothing_removed_refl.
Qed.

End NeverRemoves.

(** X12. Neither one extraction nor the whole batch ever removes anything:
    every directory and every file that was there before is there after
    (a file may have a new content), and the lines printed before are
    followed, not replaced. *)
Theorem batch_never_removes (E : env) (w : world) :
  (forall dicom_filepath base,
     nothing_removed w (snd (extract_frames_from_dicom E dicom_filepath base w))) /\
  (forall folder, nothing_removed w (snd (main E folder w))).
Proof.
  split.
  - intros dicom_filepath base.
    destruct (extract_frames_from_dicom E dicom_filepath base w) as [r w'] eqn:H.
    by apply extract_nothing_removed in H.
  - intros folder. destruct (main E folder w) as [r w'] eqn:H.
    by apply main_nothing_removed in H.
Qed.

(** ** The batch loop *)

Section Batch.

Variable E : env.

Lemma same_announcements_refl w : same_announcements w w.
Proof. done. Qed.

Lemma same_announcements_trans w1 w2 w3 :
  same_announcements w1 w2 -> same_announcements w2 w3 -> same_announcements w1 w3.
Proof. unfold same_announcements. congruence. Qed.

Lemma print_quiet d : is_processing d = false -> preserves same_announcements (print d).
Proof.
  intros Hd. prim_inv. unfold same_announcements. simpl.
  rewrite List.filter_app. simpl. rewrite Hd. apply app_nil_r.
Qed.

Lemma save_quiet img p : preserves same_announcements (save E img p).
Proof. prim_inv; done. Qed.

Lemma makedirs_quiet p : preserves same_announcements (makedirs E p).
Proof. prim_inv; done. Qed.

Ltac quiet_bind :=
  apply preserves_bind; [apply same_announcements_trans| |].

Ltac quiet_lift :=
  apply preserves_lift, same_announcements_refl.

Lemma frame_step_rank3_quiet out_path arr i :
  preserves same_announcements (frame_step_rank3 E out_path arr i).
Proof.
  unfold frame_step_rank3.
  quiet_bind; [quiet_lift|]. intros f0. quiet_bind; [quiet_lift|]. intros f.
  destruct (ndim f =? 2)%nat.
  { quiet_bind; [quiet_lift|]. intros img. apply save_quiet. }
  destruct (_ && _)%bool.
  { quiet_bind; [quiet_lift|]. intros img. apply save_quiet. }
  by apply print_quiet.
Qed.

Lemma frame_step_rank4_quiet out_path arr i :
  preserves same_announcements (frame_step_rank4 E out_path arr i).
Proof.
  unfold frame_step_rank4.
  quiet_bind; [quiet_lift|]. intros f0. quiet_bind; [quiet_lift|]. intros f.
  quiet_bind; [quiet_lift|]. intros img. apply save_quiet.
Qed.

Lemma dispatch_quiet dicom_filepath base out_path arr :
  preserves same_announcements (dispatch E dicom_filepath base out_path arr).
Proof.
  unfold dispatch. destruct (ndim arr =? 3)%nat.
  { quiet_bind; [by apply print_quiet|]. intros _.
    quiet_bind; [|intros _; by apply print_quiet].
    apply preserves_for_each;
      [apply same_announcements_refl|apply same_announcements_trans|].
    intros i _. apply frame_step_rank3_quiet. }
  destruct (ndim arr =? 4)%nat.
  { quiet_bind; [by apply print_quiet|]. intros _.
    quiet_bind; [|intros _; by apply print_quiet].
    apply preserves_for_each;
      [apply same_announcements_refl|apply same_announcements_trans|].
    intros i _. apply frame_step_rank4_quiet. }
  destruct (ndim arr =? 2)%nat.
  { quiet_bind; [by apply print_quiet|]. intros _.
    quiet_bind; [quiet_lift|]. intros f. quiet_bind; [quiet_lift|]. intros img.
    quiet_bind; [apply save_quiet|]. intros _. by apply print_quiet. }
  by apply print_quiet.
Qed.

Lemma try_body_quiet dicom_filepath base :
  preserves same_announcements (try_body E dicom_filepath base).
Proof.
  unfold try_body. quiet_bind; [quiet_lift|]. intros ds.
  destruct (negb (tag_in PixelData ds)).
  { quiet_bind; [by apply print_quiet|]. intros _.
    destruct (tag_in _ _); [by apply print_quiet|].
    apply preserves_ret, same_announcements_refl. }
  quiet_bind; [quiet_lift|]. intros arr.
  quiet_bind.
  { intros w r w'. rewrite path_exists_run. by intros [= _ <-]. }
  intros present. quiet_bind.
  { destruct (negb present); [apply makedirs_quiet|].
    apply preserves_ret, same_announcements_refl. }
  intros _. apply dispatch_quiet.
Qed.

Lemma handler_quiet dicom_filepath e :
  preserves same_announcements (handler dicom_filepath e).
Proof. destruct e; by apply print_quiet. Qed.

(** One extraction announces one file. *)
Lemma extract_announces_once dicom_filepath base w r w' :
  extract_frames_from_dicom E dicom_filepath base w = (r, w') ->
  List.filter is_processing (stdout w')
  = List.filter is_processing (stdout w) ++ [MsgProcessing (basename dicom_filepath)].
Proof.
  rewrite extract_unfold. intros H.
  assert (Hq : same_announcements (printed (MsgProcessing (basename dicom_filepath)) w) w').
  { revert H. apply preserves_try_except.
    - apply same_announcements_trans.
    - apply try_body_quiet.
    - intros e. apply handler_quiet. }
  rewrite Hq. simpl. by rewrite List.filter_app.
Qed.

Lemma batch_loop_announcements (folder : string) (l : list string) (w w' : world)
    (r : result unit) :
  for_each l (process_filename E folder) w = (r, w') ->
  List.filter is_processing (stdout w')
  = List.filter is_processing (stdout w)
    ++ List.map (fun f => MsgProcessing (basename (join folder f))) (List.filter is_dcm l).
Proof.
  revert w. induction l as [|f l IH]; intros w; simpl.
  - intros [= _ <-]. by rewrite app_nil_r.
  - unfold bind at 1.
    destruct (process_filename E folder f w) as [[e|[]] w1] eqn:Hf.
    { destruct (process_filename_returns E folder f w) as [w2 Hw2]. congruence. }
    intros Hl. rewrite (IH _ Hl). unfold process_filename in Hf. unfold is_dcm at 2.
    destruct (endswith (lower f) ".dcm").
    + rewrite (extract_announces_once _ _ _ _ _ Hf). simpl. by rewrite <- app_assoc.
    + by injection Hf as <-.
Qed.

Lemma batch_loop_skips (folder : string) (l : list string) (w : world) :
  (forall f, f ∈ l -> is_dcm f = false) ->
  for_each l (process_filename E folder) w = (inr tt, w).
Proof.
  induction l as [|f l IH]; intros Hl; simpl; [done|].
  unfold bind, process_filename.
  assert (Hf : endswith (lower f) ".dcm" = false) by (apply Hl, list_elem_of_here).
  rewrite Hf. simpl.
  apply IH. intros g Hg. apply Hl. by apply list_elem_of_further.
Qed.

Lemma main_scan (folder : string) (l : list string) (w : world) :
  isdir E folder = true -> listdir E folder = inr l ->
  main E folder w
  = (for_each (sorted l) (process_filename E folder) >> print MsgFinished)%py
      (printed (MsgScanning folder) w).
Proof.
  intros Hdir Hl. unfold main. rewrite Hdir. simpl.
  erewrite bind_inr by apply print_run.
  unfold bind at 1, try_except. by rewrite Hl.
Qed.

End Batch.

(** X13. The batch has nothing to extract, and touches neither files nor
    directories, in three cases: the folder does not exist (one error line
    and nothing else); listing the folder raises (the error is reported and
    the batch ends normally); no name in the folder ends in [.dcm],
    whatever the case of its letters. *)
Theorem main_nothing_to_process (E : env) (folder : string) (w : world) :
  (isdir E folder = false ->
   main E folder w
   = (inr tt, mk_world (stdout w ++ [ErrFolderMissing folder]) (dirs w) (files w))) /\
  (forall e, isdir E folder = true -> listdir E folder = inl e ->
     main E folder w
     = (inr tt,
        mk_world (stdout w ++ [MsgScanning folder; ErrListing folder e; MsgFinished])
          (dirs w) (files w))) /\
  (forall l, isdir E folder = true -> listdir E folder = inr l ->
     (forall f, f ∈ l -> endswith (lower f) ".dcm" = false) ->
     main E folder w
     = (inr tt, mk_world (stdout w ++ [MsgScanning folder; MsgFinished]) (dirs w) (files w))).
Proof.
  split; [|split].
  - intros Hdir. unfold main. by rewrite Hdir.
  - intros e Hdir Hl. unfold main. rewrite Hdir. simpl.
    erewrite bind_inr by apply print_run.
    unfold bind at 1, try_except. rewrite Hl. simpl.
    unfold bind at 1. simpl. unfold bind, ret, print, printed. simpl.
    by rewrite <- !app_assoc.
  - intros l Hdir Hl Hnone. rewrite (main_scan E folder l) by done.
    erewrite bind_inr; last first.
    { apply batch_loop_skips. intros f Hf. apply Hnone.
      unfold sorted in Hf. by rewrite merge_sort_Permutation in Hf. }
    rewrite print_run. unfold printed. simpl. by rewrite <- !app_assoc.
Qed.



(** X16. The batch writes image files only: a path that is not
    [single_frame.png] or a frame file in the folder
    [<script dir>/extracted_images/<stem>_extracted] of a listed name that
    ends in [.dcm] holds after the batch what it held before.  In
    particular no source file is modified. *)
Theorem batch_writes_only_artifacts (E : env) (folder : string) (l : list string)
    (w : world) (p : string) :
  isdir E folder = true ->
  listdir E folder = inr l ->
  ~ batch_outputs E folder l p ->
  files (snd (main E folder w)) !! p = files w !! p.
Proof.
  intros Hdir Hl Hp. rewrite (main_scan E folder l) by done.
  assert (Hloop : preserves (files_differ_within (batch_outputs E folder l))
                    (for_each (sorted l) (process_filename E folder))).
  { apply preserves_for_each;
      [apply files_differ_within_refl|apply files_differ_within_trans|].
    intros f Hf. unfold sorted in Hf. rewrite merge_sort_Permutation in Hf.
    unfold process_filename. destruct (endswith (lower f) ".dcm") eqn:Hdcm.
    - apply (extract_preserves E (files_differ_within (batch_outputs E folder l))
               (batch_outputs E folder l)
               (files_differ_within_refl _) (files_differ_within_trans _)
               (print_files_within _)
               (fun img q Hq => save_files_within E _ img q Hq)
               (makedirs_files_within E _)).
      intros ds arr _ _. split.
      + intros _. exists f. split; [done|]. split; [done|]. by left.
      + intros _ i _. exists f. split; [done|]. split; [done|]. right. by exists i.
    - apply preserves_ret, files_differ_within_refl. }
  unfold bind.
  destruct (for_each (sorted l) (process_filename E folder) (printed (MsgScanning folder) w))
    as [[e|[]] w1] eqn:Hrun; apply Hloop in Hrun; simpl; by apply Hrun.
Qed.

Lemma batch_writes_only_artifacts_witness :
  files (snd (main Demo.demo_env "/in" empty_world)) !! "/in/single.dcm"%string = None.
Proof.
  rewrite (batch_writes_only_artifacts Demo.demo_env "/in"
             ["single.dcm"; "README.txt"; "notes.dcm"; "CINE.DCM"]%string);
    try reflexivity.
  intros (f & Hf & _ & Hart).
  assert (Hpre : forall q, artifact_path
                   (specific_output_path Demo.demo_env (join "/in" f) "extracted_images") q ->
                 String.prefix "/opt/app/extracted_images/" q = true).
  { repeat (apply elem_of_cons in Hf as [->|Hf]); [..|by inversion Hf];
      intros q [->|[i ->]]; reflexivity. }
  apply Hpre in Hart. vm_compute in Hart. discriminate.
Defined.

(** ** The order of the frame files *)

Section NameOrder.

Local Open Scope string_scope.

Lemma frame_name_next (i : nat) :
  (S i < 100 * 100)%nat -> String.le (frame_name i) (frame_name (S i)).
Proof.
  intros Hi.
  assert (H : forallb (fun i => String.leb (frame_name i) (frame_name (S i)))
                (seq 0 (100 * 100 - 1)) = true)
    by (vm_compute; reflexivity).
  rewrite forallb_forall in H. unfold String.le. apply Is_true_true, H, in_seq. lia.
Qed.

Lemma string_compare_app (p a b : string) :
  String.compare (p ++ a) (p ++ b) = String.compare a b.
Proof.
  induction p as [|c p IH]; simpl; [done|].
  assert (Hc : Ascii.compare c c = Eq) by (unfold Ascii.compare; apply N.compare_refl).
  by rewrite Hc.
Qed.

Lemma string_le_app (p a b : string) : String.le a b -> String.le (p ++ a) (p ++ b).
Proof. unfold String.le, String.leb. by rewrite string_compare_app. Qed.

End NameOrder.

(** X15. Below 10000 frames, the names of the frame files, and their paths
    in the folder, sort as strings in the order of the frame indices: the
    zero padding makes the lexicographic order agree with the numeric one.
    From frame 10000 on this no longer holds. *)
Theorem frame_files_sort_by_index (out_path : string) (i j : nat) :
  (i < j)%nat -> (j < 100 * 100)%nat ->
  String.le (frame_name i) (frame_name j) /\
  frame_name i <> frame_name j /\
  String.le (join out_path (frame_name i)) (join out_path (frame_name j)) /\
  join out_path (frame_name i) <> join out_path (frame_name j) /\
  String.le (frame_name (100 * 100)) (frame_name (100 * 100 - 1)).
Proof.
  intros Hij Hj.
  assert (Hle : String.le (frame_name i) (frame_name j)).
  { induction j as [|j IH]; [lia|].
    destruct (decide (i = j)) as [->|Hne]; [by apply frame_name_next|].
    transitivity (frame_name j); [apply IH; lia|by apply frame_name_next]. }
  split; [done|]. split.
  { intros H. apply frame_name_inj in H. lia. }
  split.
  { rewrite !join_relative by apply frame_name_relative.
    apply string_le_app, string_le_app, Hle. }
  split.
  { intros H. apply frame_path_inj in H. lia. }
  unfold String.le. apply Is_true_true. vm_compute. reflexivity.
Qed.

Lemma frame_files_sort_by_index_witness :
  String.le "frame_0009.png" "frame_0010.png" /\
  String.le "/out/frame_0009.png" "/out/frame_0010.png".
Proof.
  destruct (frame_files_sort_by_index "/out" 9 10) as (H1 & _ & H2 & _); [lia|lia|].
  split; [exact H1|exact H2].
Defined.
